(** * reader: sqlite utilities, migration framework, connection factory, pagination

    A shallow embedding of [src/reader/_utils.py] and
    [src/reader/_sqlite_utils.py], with the properties the specification
    states about them.

    Conventions of the embedding:
    - Python [int] is [Z]; [str] is [string]; a [Dict[int, f]] is a
      [gmap Z f]; a list or a drained iterable is a [list].
    - Code that raises returns an [outcome]: [Return v] or [Raise e].
    - Code that works on a [sqlite3.Connection] is a function from the
      connection's state to a new state and an outcome (a state-and-error
      monad, [M]).
    - A generator is modelled by what a consumer that drains it observes:
      the items in order, the calls made on its arguments, and whether
      [StopIteration] was reached within the given number of loop turns.
    - [user_version] and [application_id] are stored as SQLite stores
      them, in 32 signed bits: a value written outside the range is
      stored as 0.
    - The value of a [ContextVar] belongs to a [contextvars.Context]; the
      methods of the connection factory are called by a thread running in
      a context, and contexts can be made and copied. *)

From Stdlib Require Import ZArith String Ascii List Lia Bool.
From Stdlib Require Import DecimalString HexadecimalString.
From stdpp Require Import base option list gmap strings.
From Equations Require Import Equations.

Local Open Scope Z_scope.

(** ** [_utils.py] *)

Module Utils.

(** *** [chunks]

    [it = iter(iterable)] is the list of elements not yet consumed.
    [itertools.islice(it, n)] draws at most [n] elements from [it];
    [next(chunk)] raises [StopIteration] when [it] is exhausted or [n] is 0,
    which ends the generator. Otherwise the chunk handed out is
    [chain([first], chunk)]: [first] followed by at most [n - 1] further
    elements of [it]. The consumer drains each chunk before asking for the
    next one. *)
Equations? chunks {T : Type} (n : nat) (iterable : list T) : list (list T)
  by wf (length iterable) lt :=
  chunks n [] := [];
  chunks O (_ :: _) := [];
  chunks (S m) (first :: rest) :=
    (first :: take m rest) :: chunks (S m) (drop m rest).
Proof. rewrite length_drop. simpl. lia. Qed.

(** *** [join_paginated_iter] *)

Section Paginate.

(** [W] is whatever the page function reads and writes (the database);
    [C] is the cursor type ([_T] in the source), [U] the item type. *)
Context {W C U : Type}.

Definition page_fn := Z -> option C -> W -> W * list (U * C).

(** What draining the generator shows. *)
Record drained := Drained {
  items : list U;                  (* the values yielded, in order *)
  calls : list (Z * option C);     (* the arguments of each get_things call *)
  world : W;                       (* state after the last call *)
  stopped : bool                   (* StopIteration reached *)
}.

Definition emit (call : Z * option C) (ts : list U) (d : drained) : drained :=
  {| items := ts ++ items d; calls := call :: calls d;
     world := world d; stopped := stopped d |}.

(** The [while True] loop; [fuel] bounds the number of turns. *)
Fixpoint join_paginated_loop (fuel : nat) (get_things : page_fn)
    (chunk_size : Z) (last : option C) (w : W) : drained :=
  match fuel with
  | O => {| items := []; calls := []; world := w; stopped := false |}
  | S fuel' =>
      let '(w1, things) := get_things chunk_size last w in
      if chunk_size =? 0 then
        (* yield from (t for t, _ in things); break *)
        {| items := map fst things; calls := [(chunk_size, last)];
           world := w1; stopped := true |}
      else
        match things with
        | [] =>
            (* if not things: break *)
            {| items := []; calls := [(chunk_size, last)];
               world := w1; stopped := true |}
        | t0 :: _ =>
            (* _, last = things[-1]; yield from ...; the length test *)
            let last' := snd (List.last things t0) in
            emit (chunk_size, last) (map fst things)
              (if Z.of_nat (length things) <? chunk_size then
                 {| items := []; calls := []; world := w1; stopped := true |}
               else join_paginated_loop fuel' get_things chunk_size (Some last') w1)
        end
  end.

Definition join_paginated_iter (fuel : nat) (get_things : page_fn)
    (chunk_size : Z) (w : W) : drained :=
  join_paginated_loop fuel get_things chunk_size None w.

(** The items of a sequence of pages, in order. *)
Definition flat (pages : list (list (U * C))) : list U :=
  concat (map (map fst) pages).

(** The specification's description of paging, as a relation: the calls
    made, the pages they returned, and the state after the last one. *)
Inductive paged (get_things : page_fn) (chunk_size : Z) :
    option C -> W -> list (Z * option C) -> list (list (U * C)) -> W -> Prop :=
| paged_short last w w1 page :
    get_things chunk_size last w = (w1, page) ->
    Z.of_nat (length page) < chunk_size ->
    paged get_things chunk_size last w [(chunk_size, last)] [page] w1
| paged_full last w w1 page front item cursor cs ps w2 :
    get_things chunk_size last w = (w1, page) ->
    chunk_size <= Z.of_nat (length page) ->
    page = front ++ [(item, cursor)] ->
    paged get_things chunk_size (Some cursor) w1 cs ps w2 ->
    paged get_things chunk_size last w ((chunk_size, last) :: cs) (page :: ps) w2.

End Paginate.

Arguments page_fn : clear implicits.
Arguments drained : clear implicits.

End Utils.

(** ** Python exceptions *)

Module Py.

(** The exception classes the code names, with single inheritance; any
    other class is a [Subclass] of one of them, given by its name. *)
Inductive cls :=
  | BaseException | KeyboardInterrupt | SystemExit
  | Exception | AssertionError | ValueError | LookupError
  | sqlite3_Warning | sqlite3_Error | sqlite3_InterfaceError
  | sqlite3_DatabaseError | sqlite3_DataError | sqlite3_OperationalError
  | sqlite3_IntegrityError | sqlite3_InternalError
  | sqlite3_ProgrammingError | sqlite3_NotSupportedError
  | DBError | SchemaVersionError | IntegrityError | RequirementError
  | IdError | UsageError
  | Subclass (name : string) (base : cls).

#[global] Instance cls_eq_dec : EqDecision cls.
Proof. solve_decision. Defined.

(** The method resolution order: the class and its ancestors. *)
Fixpoint mro (c : cls) : list cls :=
  match c with
  | Subclass _ b => c :: mro b
  | BaseException => [BaseException]
  | KeyboardInterrupt | SystemExit | Exception => [c; BaseException]
  | AssertionError | ValueError | LookupError
  | sqlite3_Warning | sqlite3_Error | DBError => [c; Exception; BaseException]
  | sqlite3_InterfaceError | sqlite3_DatabaseError =>
      [c; sqlite3_Error; Exception; BaseException]
  | sqlite3_DataError | sqlite3_OperationalError | sqlite3_IntegrityError
  | sqlite3_InternalError | sqlite3_ProgrammingError
  | sqlite3_NotSupportedError =>
      [c; sqlite3_DatabaseError; sqlite3_Error; Exception; BaseException]
  | SchemaVersionError | IntegrityError | RequirementError | IdError
  | UsageError => [c; DBError; Exception; BaseException]
  end.

Definition issubclass (c d : cls) : bool := bool_decide (d ∈ mro c).

(** An exception object: its type, its message ([args[0]]) and its
    [__cause__] (set by [raise ... from e], [None] otherwise and after
    [raise ... from None]). *)
#[local] Set Warnings "-register-all".
Inductive exn := Exn {
  type_of : cls;
  message : string;
  cause : option exn
}.

Definition new (c : cls) (msg : string) : exn :=
  {| type_of := c; message := msg; cause := None |}.

(** [raise x from e] and [raise x from None]. *)
Definition from (x : exn) (c : option exn) : exn :=
  {| type_of := type_of x; message := message x; cause := c |}.

Definition isinstance (e : exn) (c : cls) : bool := issubclass (type_of e) c.

(** [DBError.display_name], as overridden by the subclasses. *)
Fixpoint display_name (c : cls) : option string :=
  match c with
  | DBError => Some "database error"
  | SchemaVersionError => Some "schema version error"
  | IntegrityError => Some "integrity error"
  | RequirementError => Some "database requirement error"
  | IdError => Some "application id error"
  | UsageError => Some "usage error"
  | Subclass _ b => display_name b
  | _ => None
  end.

(** [str(e)]: [DBError.__str__] for the [DBError] family, the message
    otherwise. *)
Definition str (e : exn) : string :=
  match display_name (type_of e) with
  | Some d => d +:+ ": " +:+ message e
  | None => message e
  end.

(** [str(int)], [format(int, "x")]. *)
Definition str_int (z : Z) : string :=
  DecimalString.NilZero.string_of_int (Z.to_int z).
Definition hex_int (z : Z) : string :=
  HexadecimalString.NilZero.string_of_int (Z.to_hex_int z).

(** [str.lower()] on ASCII text. *)
Definition lower_ascii (a : ascii) : ascii :=
  let n := nat_of_ascii a in
  if ((65 <=? n) && (n <=? 90))%nat then ascii_of_nat (n + 32) else a.

Fixpoint lower (s : string) : string :=
  match s with
  | EmptyString => EmptyString
  | String a s' => String (lower_ascii a) (lower s')
  end.

(** [needle in hay] on strings. *)
Fixpoint contains (needle hay : string) : bool :=
  String.prefix needle hay ||
  match hay with
  | EmptyString => false
  | String _ hay' => contains needle hay'
  end.

Inductive outcome (A : Type) :=
  | Return (a : A)
  | Raise (e : exn).
Arguments Return {A} a.
Arguments Raise {A} e.

End Py.

(** ** The SQLite connection the utilities drive *)

Module Sqlite.
Import Py.

(** The content of a database file, as far as the utilities observe it:
    the two header integers, the rows of [sqlite_master], and the rows
    [PRAGMA foreign_key_check] returns for the current data. *)
Record Database := {
  user_version : Z;
  application_id : Z;
  sqlite_master : list string;
  foreign_key_check_rows : list string
}.

(** A [sqlite3.Connection]. [txn] is [Some d] while a transaction is open,
    [d] being the content when it began; [content] is what the connection
    sees. [foreign_keys] is the connection's enforcement setting, which is
    not part of the database content. *)
Record Connection := {
  isolation_level : option string;
  foreign_keys : bool;
  txn : option Database;
  content : Database
}.

Definition in_transaction (db : Connection) : bool :=
  match txn db with Some _ => true | None => false end.

(** Code that runs against a connection. *)
Definition M (A : Type) : Type := Connection -> Connection * outcome A.

Definition ret {A} (a : A) : M A := fun db => (db, Return a).
Definition raise {A} (e : exn) : M A := fun db => (db, Raise e).
Definition bind {A B} (m : M A) (k : A -> M B) : M B := fun db =>
  match m db with
  | (db', Return a) => k a db'
  | (db', Raise e) => (db', Raise e)
  end.

Notation "x <- m ;; k" := (bind m (fun x => k))
  (at level 100, m at next level, right associativity).
Notation "m ;; k" := (bind m (fun _ => k))
  (at level 100, right associativity).

(** [try: m  except C1 as e: h1 e  except C2 as e: h2 e ...]: the first
    clause whose class the exception is an instance of handles it; an
    exception raised by a handler is not offered to the other clauses. *)
Definition try_except {A} (m : M A) (clauses : list (cls * (exn -> M A))) : M A :=
  fun db =>
    match m db with
    | (db', Return a) => (db', Return a)
    | (db', Raise e) =>
        match List.find (fun c => isinstance e (fst c)) clauses with
        | Some (_, h) => h e db'
        | None => (db', Raise e)
        end
    end.

(** [try: m  finally: f]; an exception of [f] replaces the pending one. *)
Definition try_finally {A} (m : M A) (f : M unit) : M A :=
  fun db =>
    match m db with
    | (db', r) =>
        match f db' with
        | (db'', Return _) => (db'', r)
        | (db'', Raise e) => (db'', Raise e)
        end
    end.

(** [for x in xs: body x]. *)
Fixpoint for_each {A} (xs : list A) (body : A -> M unit) : M unit :=
  match xs with
  | [] => ret tt
  | x :: xs' => body x ;; for_each xs' body
  end.

Definition with_content (f : Database -> Database) (db : Connection) : Connection :=
  {| isolation_level := isolation_level db; foreign_keys := foreign_keys db;
     txn := txn db; content := f (content db) |}.

(** [db.isolation_level = v]. Setting it to [None] makes [sqlite3] commit
    the transaction that is open, if any. *)
Definition set_isolation_level (v : option string) : M unit := fun db =>
  match v with
  | None =>
      ({| isolation_level := None; foreign_keys := foreign_keys db;
          txn := None; content := content db |}, Return tt)
  | Some _ =>
      ({| isolation_level := v; foreign_keys := foreign_keys db;
          txn := txn db; content := content db |}, Return tt)
  end.

(** [db.execute("BEGIN;")]. *)
Definition execute_BEGIN : M unit := fun db =>
  match txn db with
  | Some _ =>
      (db, Raise (new sqlite3_OperationalError
                    "cannot start a transaction within a transaction"))
  | None =>
      ({| isolation_level := isolation_level db; foreign_keys := foreign_keys db;
          txn := Some (content db); content := content db |}, Return tt)
  end.

(** [db.execute("COMMIT;")]. *)
Definition execute_COMMIT : M unit := fun db =>
  match txn db with
  | None =>
      (db, Raise (new sqlite3_OperationalError
                    "cannot commit - no transaction is active"))
  | Some _ =>
      ({| isolation_level := isolation_level db; foreign_keys := foreign_keys db;
          txn := None; content := content db |}, Return tt)
  end.

(** [db.execute("ROLLBACK;")]. *)
Definition execute_ROLLBACK : M unit := fun db =>
  match txn db with
  | None =>
      (db, Raise (new sqlite3_OperationalError
                    "cannot rollback - no transaction is active"))
  | Some d =>
      ({| isolation_level := isolation_level db; foreign_keys := foreign_keys db;
          txn := None; content := d |}, Return tt)
  end.

(** [db.execute("PRAGMA foreign_keys;").fetchone()]. *)
Definition pragma_foreign_keys : M bool := fun db => (db, Return (foreign_keys db)).

(** [db.execute("PRAGMA foreign_keys = ON|OFF;")]: inside a transaction
    the statement has no effect and reports no error. *)
Definition set_pragma_foreign_keys (v : bool) : M unit := fun db =>
  match txn db with
  | Some _ => (db, Return tt)
  | None =>
      ({| isolation_level := isolation_level db; foreign_keys := v;
          txn := None; content := content db |}, Return tt)
  end.

(** The two integer pragmas the code reads and writes. *)
Inductive pragma := PRAGMA_user_version | PRAGMA_application_id.

Definition pragma_name (p : pragma) : string :=
  match p with
  | PRAGMA_user_version => "user_version"
  | PRAGMA_application_id => "application_id"
  end.

Definition read_pragma (p : pragma) (d : Database) : Z :=
  match p with
  | PRAGMA_user_version => user_version d
  | PRAGMA_application_id => application_id d
  end.

(** The content with one of the two integers replaced. *)
Definition put_pragma (p : pragma) (v : Z) (d : Database) : Database :=
  match p with
  | PRAGMA_user_version =>
      {| user_version := v; application_id := application_id d;
         sqlite_master := sqlite_master d;
         foreign_key_check_rows := foreign_key_check_rows d |}
  | PRAGMA_application_id =>
      {| user_version := user_version d; application_id := v;
         sqlite_master := sqlite_master d;
         foreign_key_check_rows := foreign_key_check_rows d |}
  end.

(** SQLite keeps both integers in 32 signed bits of the file header. The
    value of [PRAGMA user_version = v] and [PRAGMA application_id = v] is
    read as a 32-bit integer: a [v] outside the range is read as 0, and 0
    is what gets stored, without an error. *)
Definition INT32_MIN : Z := -2147483648.
Definition INT32_MAX : Z := 2147483647.

Definition as_int32 (v : Z) : Z :=
  if (INT32_MIN <=? v) && (v <=? INT32_MAX) then v else 0.

(** [PRAGMA <p> = <v>]. *)
Definition write_pragma (p : pragma) (v : Z) (d : Database) : Database :=
  put_pragma p (as_int32 v) d.

End Sqlite.

(** ** [_sqlite_utils.py] *)

Module SqliteUtils.
Import Py Sqlite.

(** [ddl_transaction], a context manager around [body]. *)
Definition ddl_transaction {A} (body : M A) : M A := fun db =>
  let isolation_level := Sqlite.isolation_level db in
  try_finally
    (try_except
       (set_isolation_level None ;;
        execute_BEGIN ;;
        x <- body ;;
        execute_COMMIT ;;
        ret x)
       [(Exception, fun e => execute_ROLLBACK ;; raise e)])
    (set_isolation_level isolation_level)
    db.

(** [wrap_exceptions(exc_type, message)], a context manager around [body]. *)
Definition wrap_exceptions {A} (exc_type : string -> exn) (message : string)
    (body : M A) : M A :=
  try_except body
    [ (sqlite3_OperationalError,
       fun e => raise (from (exc_type message) (Some e)));
      (sqlite3_ProgrammingError,
       fun e =>
         if contains "cannot operate on a closed database" (lower (str e))
         then raise (from (exc_type "operation on closed database") None)
         else raise e);
      (sqlite3_DatabaseError,
       fun e =>
         if bool_decide (type_of e = sqlite3_DatabaseError) then
           if contains "file is not a database" (lower (str e))
           then raise (from (exc_type message) (Some e))
           else raise e
         else raise e) ].

(** [foreign_keys_off], a context manager around [body]. *)
Definition foreign_keys_off {A} (body : M A) : M A := fun db =>
  if in_transaction db then
    (db, Raise (new AssertionError
                  "foreign_keys_off must be used outside transactions"))
  else
    (foreign_keys <- pragma_foreign_keys ;;
     try_finally
       (set_pragma_foreign_keys false ;; body)
       (set_pragma_foreign_keys (if foreign_keys then true else false))) db.

Definition foreign_key_check : M unit := fun db =>
  let failed_checks := foreign_key_check_rows (content db) in
  match failed_checks with
  | [] => (db, Return tt)
  | _ :: _ => (db, Raise (new IntegrityError "FOREIGN KEY constraint failed"))
  end.

Definition get_int_pragma (p : pragma) : M Z := fun db =>
  (db, Return (read_pragma p (content db))).

(** [set_int_pragma]: only the lower bound is checked; what the PRAGMA
    stores is [as_int32 value]. *)
Definition set_int_pragma (p : pragma) (value : Z) (lower_bound : option Z) : M unit :=
  match lower_bound with
  | Some lb =>
      if value <? lb then
        raise (new ValueError
                 (pragma_name p +:+ " must be >=" +:+ str_int lb +:+ ", got "
                  +:+ str_int value))
      else fun db => (with_content (write_pragma p value) db, Return tt)
  | None => fun db => (with_content (write_pragma p value) db, Return tt)
  end.

Definition table_count : M Z := fun db =>
  (db, Return (Z.of_nat (length (sqlite_master (content db))))).

(** [_DBFunction = Callable[[sqlite3.Connection], None]]. *)
Abbreviation _DBFunction := (M unit).

Record HeavyMigration := {
  create : _DBFunction;
  version : Z;
  migrations : gmap Z _DBFunction;
  id : Z
}.

Definition get_version : M Z := get_int_pragma PRAGMA_user_version.
Definition set_version (version : Z) : M unit :=
  set_int_pragma PRAGMA_user_version version (Some 0).
Definition get_id : M Z := get_int_pragma PRAGMA_application_id.
Definition set_id (id : Z) : M unit :=
  set_int_pragma PRAGMA_application_id id (Some 0).

(** [range(a, b)]. *)
Definition range (a b : Z) : list Z := seqZ a (b - a).

(** One turn of the [for from_version in range(version, self.version)]
    loop; [version] is the stored version read before the loop. *)
Definition migrate_step (self : HeavyMigration) (version from_version : Z) : M unit :=
  let to_version := from_version + 1 in
  match migrations self !! from_version with
  | None =>
      raise (new SchemaVersionError
               ("no migration from " +:+ str_int from_version +:+ " to "
                +:+ str_int to_version +:+ "; "
                +:+ "expected migrations for all versions "
                +:+ "later than " +:+ str_int version))
  | Some migration =>
      set_version to_version ;;
      migration ;;
      try_except foreign_key_check
        [(IntegrityError,
          fun e => raise (from (new IntegrityError
                                  ("after migrating to version "
                                   +:+ str_int to_version +:+ ": " +:+ str e))
                               None))]
  end.

(** The block under [with foreign_keys_off(db), ddl_transaction(db):], in
    three parts: the check of the stored id on entry, the dispatch on the
    stored version, and the check of the id after the migrations. *)

(** [if self.id: id = self.get_id(db); ...]. The local [id] is bound only
    when [self.id] is non-zero. *)
Definition check_id (self : HeavyMigration) : M (option Z) :=
  if bool_decide (id self = 0) then ret None
  else
    i <- get_id ;;
    if bool_decide (i <> 0) && bool_decide (i <> id self)
    then raise (new IdError ("invalid id: 0x" +:+ hex_int i))
    else ret (Some i).

(** The [if self.id:] after the loop. *)
Definition check_id_after (self : HeavyMigration) : M unit :=
  if bool_decide (id self = 0) then ret tt
  else
    i <- get_id ;;
    if bool_decide (i <> id self)
    then raise (new IdError ("missing or invalid id after migration: 0x"
                             +:+ hex_int i))
    else ret tt.

Definition migrate_from (self : HeavyMigration) (stored_id : option Z) : M unit :=
  version <- get_version ;;
  if bool_decide (version = 0) then
    n <- table_count ;;
    if bool_decide (n <> 0) then
      raise (new DBError "database with no version already has tables")
    else
      create self ;;
      set_version (SqliteUtils.version self) ;;
      set_id (id self) ;;
      ret tt
  else if bool_decide (version = SqliteUtils.version self) then
    match stored_id with
    | Some 0 => raise (new IdError "database with version has missing id")
    | _ => ret tt
    end
  else if SqliteUtils.version self <? version then
    raise (new SchemaVersionError ("invalid version: " +:+ str_int version))
  else
    for_each (range version (SqliteUtils.version self)) (migrate_step self version) ;;
    check_id_after self.

Definition migrate_body (self : HeavyMigration) : M unit :=
  stored_id <- check_id self ;;
  migrate_from self stored_id.

Definition migrate (self : HeavyMigration) : M unit :=
  foreign_keys_off (ddl_transaction (migrate_body self)).

(** *** Notions used to state the properties of [migrate] *)

(** The stored application id passes the check made on entry. *)
Definition id_check_passes (self : HeavyMigration) (db : Connection) : Prop :=
  id self = 0 \/ application_id (content db) = 0 \/
  application_id (content db) = id self.

(** The local [id] the check binds when it passes. *)
Definition stored_id (self : HeavyMigration) (db : Connection) : option Z :=
  if bool_decide (id self = 0) then None
  else Some (application_id (content db)).

(** The connection as the block under the two context managers finds it,
    when [migrate] is entered outside a transaction: foreign keys off,
    [isolation_level] [None], and a transaction begun on the content. *)
Definition in_block (db : Connection) : Connection :=
  {| isolation_level := None; foreign_keys := false;
     txn := Some (content db); content := content db |}.

(** The connection after the block's transaction is committed on content
    [d] and the two context managers have restored what they saved. *)
Definition committed (db : Connection) (d : Database) : Connection :=
  {| isolation_level := isolation_level db; foreign_keys := foreign_keys db;
     txn := None; content := d |}.

(** A function run inside the transaction leaves it open: it does not
    commit, roll back or begin another one. *)
Definition keeps_transaction {A} (f : M A) : Prop :=
  forall db, txn (fst (f db)) = txn db.

Definition keep_transaction (self : HeavyMigration) : Prop :=
  keeps_transaction (create self) /\
  forall v m, migrations self !! v = Some m -> keeps_transaction m.

(** The steps of a migration as the specification words them, from
    [from_version] on: the connection they leave and how they end.
    [version] is the stored version read before the first step. *)
Inductive migrating (self : HeavyMigration) (version : Z) :
    Z -> Connection -> Connection -> outcome unit -> Prop :=
  | migrating_done from_version db :
      SqliteUtils.version self <= from_version ->
      migrating self version from_version db db (Return tt)
  | migrating_absent from_version db :
      from_version < SqliteUtils.version self ->
      migrations self !! from_version = None ->
      migrating self version from_version db db
        (Raise (new SchemaVersionError
                  ("no migration from " +:+ str_int from_version +:+ " to "
                   +:+ str_int (from_version + 1)
                   +:+ "; expected migrations for all versions later than "
                   +:+ str_int version)))
  | migrating_raises from_version db migration db' e :
      from_version < SqliteUtils.version self ->
      migrations self !! from_version = Some migration ->
      migration (with_content (put_pragma PRAGMA_user_version (from_version + 1)) db)
        = (db', Raise e) ->
      migrating self version from_version db db' (Raise e)
  | migrating_violation from_version db migration db' row rows :
      from_version < SqliteUtils.version self ->
      migrations self !! from_version = Some migration ->
      migration (with_content (put_pragma PRAGMA_user_version (from_version + 1)) db)
        = (db', Return tt) ->
      foreign_key_check_rows (content db') = row :: rows ->
      migrating self version from_version db db'
        (Raise (new IntegrityError
                  ("after migrating to version " +:+ str_int (from_version + 1)
                   +:+ ": " +:+ "integrity error: FOREIGN KEY constraint failed")))
  | migrating_next from_version db migration db' db'' r :
      from_version < SqliteUtils.version self ->
      migrations self !! from_version = Some migration ->
      migration (with_content (put_pragma PRAGMA_user_version (from_version + 1)) db)
        = (db', Return tt) ->
      foreign_key_check_rows (content db') = [] ->
      migrating self version (from_version + 1) db' db'' r ->
      migrating self version from_version db db'' r.

(** [rowcount_exactly_one(cursor, make_exc)], on [cursor.rowcount]. *)
Definition rowcount_exactly_one (rowcount : Z) (make_exc : unit -> exn) : outcome unit :=
  if rowcount =? 0 then Raise (make_exc tt)
  else if rowcount =? 1 then Return tt
  else Raise (new AssertionError "shouldn't have more than 1 row").

End SqliteUtils.

(** ** [LocalConnectionFactory] *)

Module Factory.
Import Py.

(** Threads, [contextvars.Context] objects and connection objects are named
    by numbers. The value of a [ContextVar] belongs to the context the code
    runs in, not to the thread: a thread starts in a context of its own,
    but one thread can run in several contexts ([Context.run], the tasks
    of [asyncio]), and a context made by [copy_context()] starts with the
    values of the context it is copied from, also when another thread runs
    in it. Every method is therefore modelled as called by a thread [t]
    running in a context [c].

    [sqlite3.connect] returns an object distinct from every earlier one,
    which belongs to the calling thread: with [check_same_thread] (one of
    [kwargs], [True] unless given) the methods of a connection, [close()]
    among them, raise [ProgrammingError] in every other thread. The model
    covers [uri=False] (the constructor refuses [uri=True]) and a
    [connect] that succeeds; a failing [connect] raises and changes
    nothing. *)
Abbreviation thread := nat.
Abbreviation context := nat.
Abbreviation conn := nat.

Record LocalConnectionFactory := {
  path : string;
  (* the hook, with the calling thread, the connection, and whether the
     connection is already closed *)
  before_close : thread -> conn -> bool -> outcome unit;
  check_same_thread : bool;       (* of kwargs *)
  _local : gmap context conn;     (* the ContextVar: its value in each context *)
  _main : conn;
  (* the objects the factory refers to *)
  connected : list thread;        (* the connections made so far, each with
                                     the thread that made it *)
  closed : gset conn;
  contexts : nat                  (* the Context objects made so far *)
}.

(** [db = sqlite3.connect(...); self._local.set(db)] by thread [t] in
    context [c]. *)
Definition set_local (t : thread) (c : context) (db : conn)
    (f : LocalConnectionFactory) :=
  {| path := path f; before_close := before_close f;
     check_same_thread := check_same_thread f;
     _local := <[c := db]> (_local f); _main := _main f;
     connected := connected f ++ [t]; closed := closed f;
     contexts := contexts f |}.

Definition mark_closed (db : conn) (f : LocalConnectionFactory) :=
  {| path := path f; before_close := before_close f;
     check_same_thread := check_same_thread f;
     _local := _local f; _main := _main f;
     connected := connected f; closed := {[db]} ∪ closed f;
     contexts := contexts f |}.

Definition _is_private (path : string) : bool :=
  bool_decide (path ∈ [":memory:"; ""]).

(** [__enter__], called by thread [t] in context [c]. *)
Definition __enter__ (t : thread) (c : context) (f : LocalConnectionFactory)
    : LocalConnectionFactory * outcome conn :=
  match _local f !! c with
  | Some db => (f, Return db)
  | None => let db := length (connected f) in (set_local t c db f, Return db)
  end.

(** [__init__], called by thread [t] in context [c]: the [ContextVar] is
    new, so the [__enter__] it ends with connects. The contexts up to [c]
    are taken to exist. *)
Definition __init__ (path : string)
    (before_close : thread -> conn -> bool -> outcome unit)
    (check_same_thread : bool) (t : thread) (c : context)
    : LocalConnectionFactory :=
  {| path := path; before_close := before_close;
     check_same_thread := check_same_thread;
     _local := {[c := 0%nat]}; _main := 0%nat;
     connected := [t]; closed := ∅; contexts := S c |}.

Definition get (t : thread) (c : context) (f : LocalConnectionFactory)
    : outcome conn :=
  match _local f !! c with
  | None =>
      Raise (new UsageError
               ("must be used as a context manager "
                +:+ "when using from threads other than the creating thread"))
  | Some db =>
      if _is_private (path f) && negb (bool_decide (db = _main f)) then
        Raise (new UsageError
                 ("cannot use a private database "
                  +:+ "from threads other than the creating thread"))
      else Return db
  end.

(** [db.close()] in thread [t]: the check of the thread comes first;
    closing a closed connection is allowed. *)
Definition db_close (t : thread) (db : conn) (f : LocalConnectionFactory)
    : LocalConnectionFactory * outcome unit :=
  match connected f !! db with
  | Some made_by =>
      if check_same_thread f && negb (bool_decide (made_by = t)) then
        (f, Raise (new sqlite3_ProgrammingError
                     ("SQLite objects created in a thread can only be used in "
                      +:+ "that same thread. The object was created in thread id "
                      +:+ str_int (Z.of_nat made_by) +:+ " and this is thread id "
                      +:+ str_int (Z.of_nat t) +:+ ".")))
      else (mark_closed db f, Return tt)
  | None => (mark_closed db f, Return tt)
  end.

Definition _close (t : thread) (c : context) (f : LocalConnectionFactory)
    : LocalConnectionFactory * outcome unit :=
  match _local f !! c with
  | None => (f, Return tt)
  | Some db =>
      match before_close f t db (bool_decide (db ∈ closed f)) with
      | Return _ => db_close t db f
      | Raise e =>
          if isinstance e sqlite3_ProgrammingError then
            if contains "cannot operate on a closed database" (lower (str e))
            then db_close t db f
            else (f, Raise e)
          else (f, Raise e)
      end
  end.

Definition __exit__ (t : thread) (c : context) (f : LocalConnectionFactory) :=
  _close t c f.

Definition close (t : thread) (c : context) (f : LocalConnectionFactory)
    : LocalConnectionFactory * outcome unit :=
  if bool_decide (_local f !! c = Some (_main f)) then _close t c f
  else
    (f, Raise (new UsageError
                 ("cannot close() from threads other than the creating thread, "
                  +:+ "use as a context manager"))).

(** What happens around one factory: a thread [t] running in context [c]
    calls a method; a new empty context is made ([Context()], or the
    context a new thread starts in); or [copy_context()] is called in
    context [c]. A new context gets the next number. *)
Inductive call := Get | Enter | Exit | Close.

Inductive event :=
  | Call (t : thread) (c : context) (m : call)
  | New_context
  | Copy_context (c : context).

#[global] Instance call_eq_dec : EqDecision call.
Proof. solve_decision. Defined.

#[global] Instance event_eq_dec : EqDecision event.
Proof. solve_decision. Defined.

Definition new_context (value : option conn) (f : LocalConnectionFactory) :=
  {| path := path f; before_close := before_close f;
     check_same_thread := check_same_thread f;
     _local := match value with
               | Some db => <[contexts f := db]> (_local f)
               | None => _local f
               end;
     _main := _main f; connected := connected f; closed := closed f;
     contexts := S (contexts f) |}.

(** A call in a context that does not exist yet cannot be made. *)
Definition perform (ev : event) (f : LocalConnectionFactory)
    : LocalConnectionFactory :=
  match ev with
  | Call t c m =>
      if bool_decide (c < contexts f)%nat then
        match m with
        | Get => f
        | Enter => fst (__enter__ t c f)
        | Exit => fst (__exit__ t c f)
        | Close => fst (close t c f)
        end
      else f
  | New_context => new_context None f
  | Copy_context c => new_context (_local f !! c) f
  end.

Definition after (history : list event) (f : LocalConnectionFactory)
    : LocalConnectionFactory :=
  fold_left (fun f ev => perform ev f) history f.

(** The number of contexts a history makes. *)
Fixpoint born (history : list event) : nat :=
  match history with
  | [] => 0
  | Call _ _ _ :: history => born history
  | New_context :: history => S (born history)
  | Copy_context _ :: history => S (born history)
  end.

(** The contexts that have entered scoped acquisition, for a factory made
    in context [creator] (the constructor calls [__enter__]): the creating
    context; a context in which [__enter__] was called; and a copy of a
    context that had entered when the copy was made. *)
Inductive entered (creator : context) : list event -> context -> Prop :=
  | entered_creator history : entered creator history creator
  | entered_enter before t c later :
      (c < S creator + born before)%nat ->
      entered creator (before ++ Call t c Enter :: later) c
  | entered_copy before c later :
      entered creator before c ->
      entered creator (before ++ Copy_context c :: later)
        (S creator + born before)%nat.

(** The contexts that descend from the creating context: the creating
    context, and the copies of a context that descends from it. *)
Inductive descends (creator : context) : list event -> context -> Prop :=
  | descends_creator history : descends creator history creator
  | descends_copy before c later :
      descends creator before c ->
      descends creator (before ++ Copy_context c :: later)
        (S creator + born before)%nat.

(** What every history keeps true of a factory made by thread [t] in
    context [creator]: the creating context holds the main connection,
    which [t] made, and what a context holds is a connection that was made,
    in a context that was made. *)
Record consistent (t : thread) (creator : context)
    (f : LocalConnectionFactory) : Prop := {
  main_is_creators : _local f !! creator = Some (_main f);
  main_made_by : connected f !! _main f = Some t;
  objects_known : forall c db, _local f !! c = Some db -> (db < length (connected f))%nat;
  contexts_known : forall c db, _local f !! c = Some db -> (c < contexts f)%nat
}.

End Factory.

(** ** Flag operations of the storage *)

Module Storage.
Import Py SqliteUtils.

(** A row of [entries], with the columns the flag operations touch;
    [(id, feed)] is the table's primary key. *)
Record entry_row := {
  feed : string;
  entry_id : string;
  read : bool;
  important : bool
}.

Definition EntryNotFoundError : cls := Subclass "EntryNotFoundError" Exception.

(** The primary key: no two rows have the same [(id, feed)]. *)
Definition primary_key (entries : list entry_row) : Prop :=
  NoDup (map (fun r => (entry_id r, feed r)) entries).

Definition is_entry (feed_url id : string) (r : entry_row) : bool :=
  bool_decide (feed r = feed_url) && bool_decide (entry_id r = id).

Definition set_read (flag : bool) (r : entry_row) : entry_row :=
  {| feed := feed r; entry_id := entry_id r; read := flag; important := important r |}.

Definition set_important (flag : bool) (r : entry_row) : entry_row :=
  {| feed := feed r; entry_id := entry_id r; read := read r; important := flag |}.

(** [UPDATE entries SET ... WHERE feed = ? AND id = ?]: the table after
    the statement and the cursor's [rowcount]. *)
Definition update_where (feed_url id : string) (set : entry_row -> entry_row)
    (entries : list entry_row) : list entry_row * Z :=
  (map (fun r => if is_entry feed_url id r then set r else r) entries,
   Z.of_nat (length (List.filter (is_entry feed_url id) entries))).

(** Modelled from the spec: [Storage.mark_as_read_unread], whose module is
    not among the sources. It updates the rows of the entry and checks the
    cursor with [rowcount_exactly_one] and [EntryNotFoundError]. *)
Definition mark_as_read_unread (feed_url id : string) (flag : bool)
    (entries : list entry_row) : list entry_row * outcome unit :=
  let '(entries', rowcount) := update_where feed_url id (set_read flag) entries in
  (entries',
   rowcount_exactly_one rowcount
     (fun _ => new EntryNotFoundError (feed_url +:+ ", " +:+ id))).

(** Modelled from the spec: [Storage.mark_as_important_unimportant], as
    above for the [important] column. *)
Definition mark_as_important_unimportant (feed_url id : string) (flag : bool)
    (entries : list entry_row) : list entry_row * outcome unit :=
  let '(entries', rowcount) := update_where feed_url id (set_important flag) entries in
  (entries',
   rowcount_exactly_one rowcount
     (fun _ => new EntryNotFoundError (feed_url +:+ ", " +:+ id))).

End Storage.

(** ** Sample inputs *)

Module Samples.
Import Py Sqlite SqliteUtils.

(** A page function over the rows [1..5], each row its own cursor:
    the rows after the cursor, at most [chunk_size] of them (all of them
    when [chunk_size] is 0). *)
Definition five_rows (chunk_size : Z) (last : option Z) (w : unit)
    : unit * list (Z * Z) :=
  let after :=
    List.filter (fun r => match last with Some c => c <? r | None => true end)
                [1; 2; 3; 4; 5] in
  (w, map (fun r => (r, r))
        (if chunk_size =? 0 then after else take (Z.to_nat chunk_size) after)).

(** [StorageError], the class the storage passes to [wrap_exceptions]. *)
Definition StorageError (msg : string) : exn :=
  new (Subclass "StorageError" Exception) msg.

(** The error [sqlite3] raises for a statement on a closed connection. *)
Definition closed_database_error : exn :=
  new sqlite3_ProgrammingError "Cannot operate on a closed database.".

(** A connection on an empty database file, as [sqlite3.connect] returns it. *)
Definition empty_database : Database :=
  {| user_version := 0; application_id := 0; sqlite_master := [];
     foreign_key_check_rows := [] |}.

Definition fresh_connection : Connection :=
  {| isolation_level := Some ""; foreign_keys := true; txn := None;
     content := empty_database |}.

Definition connection_on (d : Database) : Connection :=
  {| isolation_level := Some ""; foreign_keys := true; txn := None; content := d |}.

(** A database with the table [feeds], at a given version and id. *)
Definition database_at (version id : Z) : Database :=
  {| user_version := version; application_id := id; sqlite_master := ["feeds"];
     foreign_key_check_rows := [] |}.

Definition add_schema (name : string) (d : Database) : Database :=
  {| user_version := user_version d; application_id := application_id d;
     sqlite_master := name :: sqlite_master d;
     foreign_key_check_rows := foreign_key_check_rows d |}.

(** [create]: makes the table [feeds]. *)
Definition create_feeds : _DBFunction := fun db =>
  (with_content (add_schema "feeds") db, Return tt).

(** A migration that adds an index. *)
Definition add_index : _DBFunction := fun db =>
  (with_content (add_schema "entries_by_feed") db, Return tt).

(** A migration that leaves a row without its parent. *)
Definition orphan_entry : _DBFunction := fun db =>
  (with_content
     (fun d => {| user_version := user_version d;
                  application_id := application_id d;
                  sqlite_master := sqlite_master d;
                  foreign_key_check_rows := ["entries"] |}) db,
   Return tt).

(** [create] interrupted from the keyboard after making the table. *)
Definition interrupted_create : _DBFunction :=
  create_feeds ;; raise (new KeyboardInterrupt "").

(** [create] that commits what it made and then fails. *)
Definition committing_create : _DBFunction :=
  create_feeds ;; execute_COMMIT ;; raise (new ValueError "boom").

Definition app_id : Z := 1717920100.

Definition migration_with (create : _DBFunction) : HeavyMigration :=
  {| create := create; version := 3;
     migrations := {[ 1 := add_index; 2 := add_index ]};
     id := app_id |}.

(** A configuration whose first migration leaves an orphan. *)
Definition migration_orphaning : HeavyMigration :=
  {| create := create_feeds; version := 3;
     migrations := {[ 1 := orphan_entry; 2 := add_index ]};
     id := app_id |}.

(** A configuration with no migration from version 2. *)
Definition migration_with_gap : HeavyMigration :=
  {| create := create_feeds; version := 3;
     migrations := {[ 1 := add_index ]};
     id := app_id |}.

(** A configuration whose target version does not fit in 32 signed bits. *)
Definition migration_beyond_int32 : HeavyMigration :=
  {| create := create_feeds; version := 2147483648;
     migrations := {[ 2147483647 := add_index ]};
     id := 0 |}.

(** A configuration whose id does not fit in 32 signed bits. *)
Definition migration_with_wide_id : HeavyMigration :=
  {| create := create_feeds; version := 3;
     migrations := {[ 1 := add_index; 2 := add_index ]};
     id := 3735928559 |}.

(** [create] that makes the table and then fails. *)
Definition failing_create : _DBFunction :=
  create_feeds ;; raise (new ValueError "boom").

Definition two_entries : list Storage.entry_row :=
  [ {| Storage.feed := "feed"; Storage.entry_id := "one";
       Storage.read := false; Storage.important := false |};
    {| Storage.feed := "feed"; Storage.entry_id := "two";
       Storage.read := false; Storage.important := false |} ].

End Samples.

(** ** More of [_utils.py] *)

Module UtilsMore.
Import Py.

(** [zero_or_one(it, make_exc, default)]; [default = None] stands for the
    [MISSING] marker. *)
Definition zero_or_one {U : Type} (it : list U) (make_exc : unit -> exn)
    (default : option U) : outcome U :=
  let things := it in
  match things with
  | [] =>
      match default with
      | None => Raise (make_exc tt)
      | Some d => Return d
      end
  | [thing] => Return thing
  | _ :: _ :: _ => Raise (new AssertionError "shouldn't get here")
  end.

(** How the generator of [wrap_map] ends: the sentinel came out of the
    queue, or [queue.get()] waits on an empty queue that nothing fills. *)
Inductive ending := Exhausted | Blocked.

(** [next(iterable, sentinel)]; the sentinel is [None]. *)
Definition next_or_sentinel {T : Type} (iterable : list T) : option T * list T :=
  match iterable with
  | [] => (None, [])
  | x :: rest => (Some x, rest)
  end.

(** [for _ in range(workers): queue.put(next(iterable, sentinel))]. *)
Fixpoint prefill {T : Type} (workers : nat) (queue : list (option T))
    (iterable : list T) : list (option T) * list T :=
  match workers with
  | O => (queue, iterable)
  | S workers' =>
      let '(item, iterable') := next_or_sentinel iterable in
      prefill workers' (queue ++ [item]) iterable'
  end.

(** [for rv in map(func, iter(queue.get, sentinel)): queue.put(...); yield rv],
    with the builtin [map], which takes one item and applies [func] at each
    step, in the thread of the consumer. *)
Equations? wrap_map_loop {T R : Type} (func : T -> R)
    (queue : list (option T)) (iterable : list T) : list R * ending
  by wf (length iterable + length (omap id queue))%nat lt :=
  wrap_map_loop func [] _ := ([], Blocked);
  wrap_map_loop func (None :: _) _ := ([], Exhausted);
  wrap_map_loop func (Some x :: queue') iterable :=
    let rv := func x in
    let rest := wrap_map_loop func
                  (queue' ++ [fst (next_or_sentinel iterable)])
                  (snd (next_or_sentinel iterable)) in
    (rv :: fst rest, snd rest).
Proof.
  destruct iterable as [| y iterable']; cbn; rewrite omap_app; cbn;
    rewrite length_app; cbn; unfold omap; lia.
Qed.

(** [wrap_map(map, workers)(func, iterable)] for the builtin [map]. *)
Definition wrap_map {T R : Type} (workers : Z) (func : T -> R)
    (iterable : list T) : list R * ending :=
  let '(queue, iterable') := prefill (Z.to_nat workers) [] iterable in
  wrap_map_loop func queue iterable'.

End UtilsMore.

(** ** Page functions over a list *)

Module PageSource.

(** The rows of a page, each with the position after it as its cursor. *)
Fixpoint numbered {U : Type} (position : nat) (rows : list U) : list (U * nat) :=
  match rows with
  | [] => []
  | r :: rows' => (r, S position) :: numbered (S position) rows'
  end.

(** A page function that serves the rows of a list by position: the
    rows after the cursor, at most [chunk_size] of them, all of them when
    [chunk_size] is 0. *)
Definition list_pages {U : Type} (rows : list U) : Utils.page_fn unit nat U :=
  fun chunk_size last w =>
    let position := match last with Some i => i | None => O end in
    let rest := drop position rows in
    (w, numbered position
          (if chunk_size =? 0 then rest else take (Z.to_nat chunk_size) rest)).

(** A page function that always has one more row. *)
Definition endless : Utils.page_fn unit nat nat :=
  fun chunk_size last w =>
    let position := match last with Some i => i | None => O end in
    (w, [(position, S position)]).

End PageSource.

(** ** The requirements checked by [setup_db] *)

Module Setup.
Import Py Sqlite SqliteUtils.

(** What the code gets from the SQLite library behind a connection: the
    integers of [SELECT sqlite_version()] (the code splits the text at the
    dots and converts the parts), [sqlite3.sqlite_version_info], the result
    of running a statement that tests a function, and the effect of
    [PRAGMA journal_mode = WAL] ([true]) or [= DELETE] ([false]). *)
Record Engine := {
  sqlite_version : list Z;
  sqlite_version_info : list Z;
  execute_test : string -> outcome unit;
  set_journal_mode : bool -> M unit
}.

(** [a > b] on tuples of integers. *)
Fixpoint tuple_gt (a b : list Z) : bool :=
  match a, b with
  | [], _ => false
  | _ :: _, [] => true
  | x :: a', y :: b' => if x =? y then tuple_gt a' b' else y <? x
  end.

(** [sep.join(parts)]. *)
Fixpoint join (sep : string) (parts : list string) : string :=
  match parts with
  | [] => ""
  | [part] => part
  | part :: parts' => part +:+ sep +:+ join sep parts'
  end.

Definition require_version (engine : Engine) (version_info : list Z) : outcome unit :=
  let version_ints := sqlite_version engine in
  if tuple_gt version_info version_ints then
    Raise (new RequirementError
             ("at least SQLite version " +:+ join "." (map str_int version_info)
              +:+ " required, "
              +:+ join "." (map str_int (sqlite_version_info engine))
              +:+ " installed"))
  else Return tt.

Definition FUNCTION_TESTS : gmap string string :=
  {[ "json_array_length" := "select json_array_length('[]')";
     "json" := "select json(1)";
     "json_object" := "select json_object('key', 1)";
     "json_group_array" := "select json_group_array(1)";
     "json_each" := "select * from json_each(1)" ]}.

(** [missing.add(name)] on a set kept as the sorted list [sorted(missing)]
    gives. *)
Fixpoint add_sorted (name : string) (missing : list string) : list string :=
  match missing with
  | [] => [name]
  | m :: missing' =>
      if String.eqb name m then missing
      else if String.ltb name m then name :: missing
      else m :: add_sorted name missing'
  end.

(** [repr] of a list of function names. *)
Definition repr_names (names : list string) : string :=
  "[" +:+ join ", " (map (fun n => "'" +:+ n +:+ "'") names) +:+ "]".

(** The [for name in names:] loop; [missing] is the set so far. *)
Fixpoint probe_functions (engine : Engine) (names : list string)
    (missing : list string) : outcome (list string) :=
  match names with
  | [] => Return missing
  | name :: names' =>
      match FUNCTION_TESTS !! name with
      | None | Some "" =>
          Raise (new ValueError ("no test for function: " +:+ name))
      | Some sql =>
          match execute_test engine sql with
          | Return _ => probe_functions engine names' missing
          | Raise e =>
              if isinstance e sqlite3_OperationalError then
                if contains "no such" (str e)
                then probe_functions engine names' (add_sorted name missing)
                else Raise e
              else Raise e
          end
      end
  end.

Definition require_functions (engine : Engine) (names : list string) : outcome unit :=
  match probe_functions engine names [] with
  | Raise e => Raise e
  | Return [] => Return tt
  | Return (m :: missing) =>
      Raise (new RequirementError
               ("required SQLite functions missing: " +:+ repr_names (m :: missing)))
  end.

(** Lifting a check that does not touch the connection. *)
Definition check {A} (r : outcome A) : M A := fun db => (db, r).

Definition setup_db (engine : Engine) (create : _DBFunction) (version : Z)
    (migrations : gmap Z _DBFunction) (id : Z)
    (minimum_sqlite_version : list Z) (required_sqlite_functions : list string)
    (wal_enabled : option bool) : M unit :=
  check (require_version engine minimum_sqlite_version) ;;
  check (require_functions engine required_sqlite_functions) ;;
  set_pragma_foreign_keys true ;;
  match wal_enabled with
  | None => ret tt
  | Some true => set_journal_mode engine true
  | Some false => set_journal_mode engine false
  end ;;
  migrate {| create := create; SqliteUtils.version := version;
             SqliteUtils.migrations := migrations; SqliteUtils.id := id |}.

(** An engine recent enough, in which every tested function exists. *)
Definition complete_engine : Engine :=
  {| sqlite_version := [3; 31; 1]; sqlite_version_info := [3; 31; 1];
     execute_test := fun _ => Return tt;
     set_journal_mode := fun _ => ret tt |}.

(** An engine built without the JSON functions. *)
Definition engine_without_json : Engine :=
  {| sqlite_version := [3; 31; 1]; sqlite_version_info := [3; 31; 1];
     execute_test := fun sql =>
       Raise (new sqlite3_OperationalError ("no such function: " +:+ sql));
     set_journal_mode := fun _ => ret tt |}.

End Setup.

(** ** Notions used to state the further properties *)

Module Notions.
Import Py Sqlite SqliteUtils Setup.

(** The order of Python on tuples of integers: [a < b]. *)
Inductive tuple_lt : list Z -> list Z -> Prop :=
  | tuple_lt_nil y b : tuple_lt [] (y :: b)
  | tuple_lt_head x y a b : x < y -> tuple_lt (x :: a) (y :: b)
  | tuple_lt_tail x a b : tuple_lt a b -> tuple_lt (x :: a) (x :: b).

(** The function has a test and the engine runs it without error. *)
Definition available (engine : Engine) (name : string) : Prop :=
  exists sql, FUNCTION_TESTS !! name = Some sql /\
              execute_test engine sql = Return tt.

(** The function has a test and the engine answers it with an
    [OperationalError] whose text contains "no such". *)
Definition lacking (engine : Engine) (name : string) : Prop :=
  exists sql e, FUNCTION_TESTS !! name = Some sql /\
                execute_test engine sql = Raise e /\
                isinstance e sqlite3_OperationalError = true /\
                contains "no such" (str e) = true.

(** The journal mode pragma leaves the transaction state and the foreign
    keys setting of the connection alone. *)
Definition quiet_journal (engine : Engine) : Prop :=
  forall b c,
    txn (fst (set_journal_mode engine b c)) = txn c /\
    foreign_keys (fst (set_journal_mode engine b c)) = foreign_keys c.

(** No migration function changes [user_version] itself. *)
Definition keep_version (self : HeavyMigration) : Prop :=
  forall v (m : M unit), migrations self !! v = Some m ->
    forall c, user_version (content (fst (m c))) = user_version (content c).

(** The hook of a factory that does what [sqlite3] does on a closed
    connection: it fails with the error of a closed database. *)
Definition closing_hook (t : Factory.thread) (db : Factory.conn) (is_closed : bool)
    : outcome unit :=
  if is_closed
  then Raise (new sqlite3_ProgrammingError "Cannot operate on a closed database.")
  else Return tt.

End Notions.

(** * Properties *)

(** ** [chunks] *)

Section ChunksFacts.
Import Utils.
Context {T : Type}.
Implicit Types (xs : list T) (n : nat).

Lemma chunks_concat n xs : (1 <= n)%nat -> concat (chunks n xs) = xs.
Proof.
  intros Hn. funelim (chunks n xs); simp chunks; try reflexivity; try lia.
  cbn [concat]. rewrite H by lia. cbn. f_equal. apply take_drop.
Qed.

Lemma chunks_bounds n xs c :
  c ∈ chunks n xs -> (1 <= length c <= n)%nat.
Proof.
  funelim (chunks n xs); simp chunks; intros Hc.
  - inversion Hc.
  - inversion Hc.
  - apply elem_of_cons in Hc as [-> | Hc]; [| by apply H].
    cbn [length]. pose proof (length_take_le rest m). rewrite length_take. lia.
Qed.

Lemma chunks_full n xs i c :
  chunks n xs !! i = Some c ->
  (S i < length (chunks n xs))%nat ->
  length c = n.
Proof.
  revert i. funelim (chunks n xs); simp chunks; intros i Hi Hlen.
  - inversion Hi.
  - inversion Hi.
  - destruct i as [| i].
    + injection Hi as <-. cbn [length] in *.
      destruct (decide (m <= length rest)%nat) as [Hle | Hgt].
      * rewrite length_take. lia.
      * rewrite drop_ge in Hlen by lia. simp chunks in Hlen. cbn in Hlen. lia.
    + cbn in Hi. cbn [length] in Hlen. eapply H; [exact Hi | lia].
Qed.

End ChunksFacts.

(** C10. For every [n >= 1] and every finite [xs], the chunks of
    [chunks n xs], drained in order and concatenated, give back [xs];
    every chunk but the last has exactly [n] elements; and no chunk is
    empty (each has between 1 and [n] elements), so the last one is
    non-empty. *)
Theorem chunks_partition {T : Type} (n : nat) (xs : list T) :
  (1 <= n)%nat ->
  concat (Utils.chunks n xs) = xs /\
  (forall i c, Utils.chunks n xs !! i = Some c ->
               (S i < length (Utils.chunks n xs))%nat -> length c = n) /\
  (forall c, c ∈ Utils.chunks n xs -> c <> [] /\ (1 <= length c <= n)%nat) /\
  (forall c, last (Utils.chunks n xs) = Some c -> c <> []).
Proof.
  intros Hn. split; [by apply chunks_concat |].
  split; [intros i c; apply chunks_full |].
  assert (Hne : forall c, c ∈ Utils.chunks n xs -> c <> [] /\ (1 <= length c <= n)%nat).
  { intros c Hc. pose proof (chunks_bounds _ _ _ Hc) as Hb. split; [| exact Hb].
    intros ->. cbn in Hb. lia. }
  split; [exact Hne |].
  intros c Hc. apply Hne. apply last_Some in Hc as [l' ->].
  apply elem_of_app. right. left.
Qed.

Lemma chunks_partition_witness :
  concat (Utils.chunks 2 [1; 2; 3; 4; 5]) = [1; 2; 3; 4; 5] /\
  Utils.chunks 2 [1; 2; 3; 4; 5] = [[1; 2]; [3; 4]; [5]].
Proof.
  split.
  - apply (chunks_partition 2 [1; 2; 3; 4; 5]). lia.
  - reflexivity.
Defined.

(** ** [join_paginated_iter] *)

Section PaginateFacts.
Import Utils.
Context {W C U : Type}.
Variable get_things : page_fn W C U.
Variable chunk_size : Z.

(** Without chunking, one turn is the whole run. *)
Lemma loop_unchunked fuel last w :
  chunk_size = 0 ->
  join_paginated_loop (S fuel) get_things chunk_size last w =
    {| items := map fst (snd (get_things 0 last w));
       calls := [(0, last)];
       world := fst (get_things 0 last w);
       stopped := true |}.
Proof.
  intros ->. cbn. destruct (get_things 0 last w) as [w1 things]. reflexivity.
Qed.

Hypothesis chunked : 0 < chunk_size.

(** A run that stopped went through pages as the relation describes. *)
Lemma loop_stopped_paged fuel : forall last w,
  stopped (join_paginated_loop fuel get_things chunk_size last w) = true ->
  exists pages,
    paged get_things chunk_size last w
      (calls (join_paginated_loop fuel get_things chunk_size last w)) pages
      (world (join_paginated_loop fuel get_things chunk_size last w)) /\
    items (join_paginated_loop fuel get_things chunk_size last w) = flat pages.
Proof.
  induction fuel as [| fuel IH]; intros last w; cbn; [discriminate |].
  destruct (get_things chunk_size last w) as [w1 things] eqn:Hget.
  destruct (Z.eqb_spec chunk_size 0) as [-> | _]; [lia |].
  destruct things as [| t0 rest] eqn:Hthings.
  - intros _. exists [[]]. split; [| reflexivity].
    apply paged_short with (w1 := w1); [exact Hget | cbn; lia].
  - rewrite <- Hthings in *.
    destruct (Z.ltb_spec (Z.of_nat (length things)) chunk_size) as [Hlt | Hge].
    + intros _. exists [things]. cbn. split.
      * apply paged_short; assumption.
      * unfold flat. cbn. rewrite !app_nil_r. reflexivity.
    + cbn. intros Hstop. destruct (IH _ _ Hstop) as (pages & Hpaged & Hitems).
      exists (things :: pages). split.
      * assert (Hne : things <> []) by (rewrite Hthings; discriminate).
        destruct (exists_last Hne) as (front & [item cursor] & Hsplit).
        apply paged_full with (w1 := w1) (front := front) (item := item)
                              (cursor := cursor); try assumption.
        replace cursor with (snd (List.last things t0)); [exact Hpaged |].
        rewrite Hsplit, List.last_last. reflexivity.
      * rewrite Hitems. reflexivity.
Qed.

(** Pages as the relation describes are what a run with enough turns
    produces, and it stops. *)
Lemma paged_loop last w cs pages w' :
  paged get_things chunk_size last w cs pages w' ->
  forall fuel, (length pages <= fuel)%nat ->
    join_paginated_loop fuel get_things chunk_size last w =
      {| items := flat pages; calls := cs; world := w'; stopped := true |}.
Proof.
  induction 1 as [last w w1 page Hget Hshort
                 | last w w1 page front item cursor cs ps w2 Hget Hfull Hsplit _ IH];
    intros [| fuel] Hfuel; cbn in Hfuel; try lia; cbn; rewrite Hget;
    destruct (Z.eqb_spec chunk_size 0) as [? | _]; try lia.
  - destruct page as [| t0 rest] eqn:Hpage; [reflexivity |].
    rewrite <- Hpage in *.
    destruct (Z.ltb_spec (Z.of_nat (length page)) chunk_size); [| lia].
    unfold emit, flat. cbn. rewrite !app_nil_r. reflexivity.
  - destruct page as [| t0 rest] eqn:Hpage; [cbn in Hfull; lia |].
    rewrite <- Hpage in *.
    destruct (Z.ltb_spec (Z.of_nat (length page)) chunk_size); [lia |].
    replace (List.last page t0) with (item, cursor)
      by (rewrite Hsplit, List.last_last; reflexivity).
    cbn [snd]. rewrite IH by lia. reflexivity.
Qed.

(** In the relation, the last page is the only short one. *)
Lemma paged_shape last w cs pages w' :
  paged get_things chunk_size last w cs pages w' ->
  length cs = length pages /\
  exists full short,
    pages = full ++ [short] /\
    Forall (fun p => chunk_size <= Z.of_nat (length p)) full /\
    Z.of_nat (length short) < chunk_size.
Proof.
  induction 1 as [last w w1 page Hget Hshort
                 | last w w1 page front item cursor cs ps w2 Hget Hfull Hsplit _ IH].
  - split; [reflexivity |]. exists [], page. auto.
  - destruct IH as (Hlen & full & short & -> & Hall & Hshort).
    split; [cbn; congruence |].
    exists (page :: full), short. split; [reflexivity |]. split; [| exact Hshort].
    constructor; assumption.
Qed.

End PaginateFacts.

(** C8. With [chunk_size = 0] the generator makes the single call
    [get_things(0, None)] and yields its items in order. With
    [chunk_size > 0] it calls [get_things(chunk_size, last)] starting from
    [None], yields every page's items in order, hands the cursor of a
    page's last item to the next call, and stops exactly at the first page
    with fewer than [chunk_size] items (an empty page included): a run that
    stopped went through such pages, and such pages make every run with
    enough turns stop after them. *)
Theorem join_paginated_iter_pages {W C U : Type}
    (get_things : Utils.page_fn W C U) (chunk_size : Z) (w : W) :
  (chunk_size = 0 ->
   forall fuel,
     Utils.join_paginated_iter (S fuel) get_things chunk_size w =
       {| Utils.items := map fst (snd (get_things 0 None w));
          Utils.calls := [(0, None)];
          Utils.world := fst (get_things 0 None w);
          Utils.stopped := true |}) /\
  (0 < chunk_size ->
   (forall fuel,
      Utils.stopped (Utils.join_paginated_iter fuel get_things chunk_size w) = true ->
      exists pages,
        Utils.paged get_things chunk_size None w
          (Utils.calls (Utils.join_paginated_iter fuel get_things chunk_size w)) pages
          (Utils.world (Utils.join_paginated_iter fuel get_things chunk_size w)) /\
        Utils.items (Utils.join_paginated_iter fuel get_things chunk_size w)
          = Utils.flat pages) /\
   (forall cs pages w',
      Utils.paged get_things chunk_size None w cs pages w' ->
      (forall fuel, (length pages <= fuel)%nat ->
         Utils.join_paginated_iter fuel get_things chunk_size w =
           {| Utils.items := Utils.flat pages; Utils.calls := cs;
              Utils.world := w'; Utils.stopped := true |}) /\
      length cs = length pages /\
      exists full short,
        pages = full ++ [short] /\
        Forall (fun p => chunk_size <= Z.of_nat (length p)) full /\
        Z.of_nat (length short) < chunk_size)).
Proof.
  split.
  - intros Hz fuel. unfold Utils.join_paginated_iter. by apply loop_unchunked.
  - intros Hpos. split.
    + intros fuel. apply loop_stopped_paged. exact Hpos.
    + intros cs pages w' Hpaged. split.
      * intros fuel. by apply paged_loop.
      * eapply paged_shape; eassumption.
Qed.

Lemma join_paginated_iter_pages_witness :
  Utils.join_paginated_iter 1 Samples.five_rows 0 tt =
    {| Utils.items := [1; 2; 3; 4; 5]; Utils.calls := [(0, None)];
       Utils.world := tt; Utils.stopped := true |} /\
  exists pages,
    Utils.paged Samples.five_rows 2 None tt
      [(2, None); (2, Some 2); (2, Some 4)] pages tt /\
    [1; 2; 3; 4; 5] = Utils.flat pages.
Proof.
  destruct (join_paginated_iter_pages Samples.five_rows 0 tt) as [H0 _].
  destruct (join_paginated_iter_pages Samples.five_rows 2 tt) as [_ H2].
  split.
  - apply (H0 eq_refl 0%nat).
  - destruct (H2 ltac:(lia)) as [Hstop _]. apply (Hstop 3%nat). reflexivity.
Defined.

(** ** [wrap_exceptions] *)

Section WrapFacts.
Import Py Sqlite SqliteUtils.

Lemma issubclass_Subclass name b d :
  d <> Subclass name b ->
  issubclass (Subclass name b) d = issubclass b d.
Proof.
  intros Hne. unfold issubclass. cbn [mro].
  apply bool_decide_ext. rewrite elem_of_cons.
  split; [intros [? | ?]; [contradiction | assumption] | by right].
Qed.

(** [OperationalError] and [ProgrammingError] have no common subclass. *)
Lemma operational_not_programming c :
  issubclass c sqlite3_OperationalError = true ->
  issubclass c sqlite3_ProgrammingError = false.
Proof.
  induction c; try (vm_compute; congruence).
  rewrite !issubclass_Subclass by discriminate. exact IHc.
Qed.

Lemma subclass_of_DatabaseError c d :
  d = sqlite3_OperationalError \/ d = sqlite3_ProgrammingError ->
  issubclass c d = true -> issubclass c sqlite3_DatabaseError = true.
Proof.
  intros Hd. induction c; try (destruct Hd as [-> | ->]; vm_compute; congruence).
  rewrite !issubclass_Subclass by (destruct Hd as [-> | ->]; discriminate).
  exact IHc.
Qed.

Context {A : Type}.
Variable exc_type : string -> exn.
Variable message : string.
Variable body : M A.
Variables (db db' : Connection) (e : exn).
Hypothesis raised : body db = (db', Raise e).

Lemma wrap_operational :
  isinstance e sqlite3_OperationalError = true ->
  wrap_exceptions exc_type message body db =
    (db', Raise (from (exc_type message) (Some e))).
Proof.
  intros He. unfold wrap_exceptions, try_except. rewrite raised.
  cbn [List.find fst]. rewrite He. reflexivity.
Qed.

Lemma wrap_programming :
  isinstance e sqlite3_ProgrammingError = true ->
  wrap_exceptions exc_type message body db =
    (db', Raise (if contains "cannot operate on a closed database" (lower (str e))
                 then from (exc_type "operation on closed database") None
                 else e)).
Proof.
  intros He. unfold wrap_exceptions, try_except. rewrite raised.
  cbn [List.find fst].
  destruct (isinstance e sqlite3_OperationalError) eqn:Hop.
  { apply operational_not_programming in Hop. unfold isinstance in He. congruence. }
  rewrite He.
  destruct (contains _ _); reflexivity.
Qed.

Lemma wrap_database :
  isinstance e sqlite3_OperationalError = false ->
  isinstance e sqlite3_ProgrammingError = false ->
  isinstance e sqlite3_DatabaseError = true ->
  wrap_exceptions exc_type message body db =
    (db', Raise (if bool_decide (type_of e = sqlite3_DatabaseError)
                    && contains "file is not a database" (lower (str e))
                 then from (exc_type message) (Some e)
                 else e)).
Proof.
  intros Hop Hpr Hdb. unfold wrap_exceptions, try_except. rewrite raised.
  cbn [List.find fst]. rewrite Hop, Hpr, Hdb.
  destruct (bool_decide _); [destruct (contains _ _) |]; reflexivity.
Qed.

Lemma wrap_other :
  isinstance e sqlite3_DatabaseError = false ->
  wrap_exceptions exc_type message body db = (db', Raise e).
Proof.
  intros Hdb. unfold wrap_exceptions, try_except. rewrite raised.
  cbn [List.find fst].
  destruct (isinstance e sqlite3_OperationalError) eqn:Hop.
  { apply (subclass_of_DatabaseError _ sqlite3_OperationalError) in Hop; [| by left].
    unfold isinstance in Hdb. congruence. }
  destruct (isinstance e sqlite3_ProgrammingError) eqn:Hpr.
  { apply (subclass_of_DatabaseError _ sqlite3_ProgrammingError) in Hpr; [| by right].
    unfold isinstance in Hdb. congruence. }
  rewrite Hdb. reflexivity.
Qed.

End WrapFacts.

(** C5 (as amended). An exception [e] leaving the block is treated by
    class: an [OperationalError] is replaced by [exc_type(message)] with [e]
    as its cause; a [ProgrammingError] whose lower-cased text contains
    "cannot operate on a closed database" is replaced by
    [exc_type("operation on closed database")] with no cause
    ([raise ... from None]), any other [ProgrammingError] propagates
    unchanged; an exception that is exactly a [DatabaseError] and whose
    lower-cased text contains "file is not a database" is replaced by
    [exc_type(message)] with [e] as its cause; everything else propagates
    unchanged. *)
Theorem wrap_exceptions_reraise {A : Type} (exc_type : string -> Py.exn)
    (message : string) (body : Sqlite.M A) (db db' : Sqlite.Connection) (e : Py.exn) :
  body db = (db', Py.Raise e) ->
  (Py.isinstance e Py.sqlite3_OperationalError = true ->
   SqliteUtils.wrap_exceptions exc_type message body db =
     (db', Py.Raise (Py.from (exc_type message) (Some e))) /\
   Py.cause (Py.from (exc_type message) (Some e)) = Some e) /\
  (Py.isinstance e Py.sqlite3_ProgrammingError = true ->
   (Py.contains "cannot operate on a closed database" (Py.lower (Py.str e)) = true ->
    SqliteUtils.wrap_exceptions exc_type message body db =
      (db', Py.Raise (Py.from (exc_type "operation on closed database") None)) /\
    Py.cause (Py.from (exc_type "operation on closed database") None) = None) /\
   (Py.contains "cannot operate on a closed database" (Py.lower (Py.str e)) = false ->
    SqliteUtils.wrap_exceptions exc_type message body db = (db', Py.Raise e))) /\
  (Py.isinstance e Py.sqlite3_OperationalError = false ->
   Py.isinstance e Py.sqlite3_ProgrammingError = false ->
   (Py.type_of e = Py.sqlite3_DatabaseError ->
    Py.contains "file is not a database" (Py.lower (Py.str e)) = true ->
    SqliteUtils.wrap_exceptions exc_type message body db =
      (db', Py.Raise (Py.from (exc_type message) (Some e)))) /\
   (~ (Py.type_of e = Py.sqlite3_DatabaseError /\
       Py.contains "file is not a database" (Py.lower (Py.str e)) = true) ->
    SqliteUtils.wrap_exceptions exc_type message body db = (db', Py.Raise e))).
Proof.
  intros Hraised. split; [| split].
  - intros Hop. split; [by apply wrap_operational | reflexivity].
  - intros Hpr. split.
    + intros Hin. rewrite (wrap_programming _ _ _ _ _ _ Hraised Hpr), Hin. done.
    + intros Hin. rewrite (wrap_programming _ _ _ _ _ _ Hraised Hpr), Hin. done.
  - intros Hop Hpr. split.
    + intros Hty Hin.
      rewrite (wrap_database _ _ _ _ _ _ Hraised Hop Hpr).
      * rewrite bool_decide_eq_true_2 by exact Hty. rewrite Hin. reflexivity.
      * unfold Py.isinstance. rewrite Hty. reflexivity.
    + intros Hnot.
      destruct (Py.isinstance e Py.sqlite3_DatabaseError) eqn:Hdb.
      * rewrite (wrap_database _ _ _ _ _ _ Hraised Hop Hpr Hdb).
        destruct (bool_decide_reflect (Py.type_of e = Py.sqlite3_DatabaseError));
          [| reflexivity].
        destruct (Py.contains _ _) eqn:Hin; [| reflexivity].
        exfalso. apply Hnot. split; [assumption | reflexivity].
      * by apply wrap_other.
Qed.

Lemma wrap_exceptions_reraise_witness :
  SqliteUtils.wrap_exceptions Samples.StorageError "unexpected error"
    (Sqlite.raise (A := unit) Samples.closed_database_error)
    Samples.fresh_connection =
  (Samples.fresh_connection,
   Py.Raise (Py.new (Py.Subclass "StorageError" Py.Exception)
               "operation on closed database")).
Proof.
  destruct (wrap_exceptions_reraise (A := unit) Samples.StorageError
              "unexpected error" (Sqlite.raise Samples.closed_database_error)
              Samples.fresh_connection Samples.fresh_connection
              Samples.closed_database_error eq_refl) as (_ & Hpr & _).
  destruct (Hpr eq_refl) as [Hin _].
  destruct (Hin eq_refl) as [Heq _]. exact Heq.
Defined.

(** C5, as stated, fails twice. The replacement of a [ProgrammingError]
    about a closed database does not keep it as cause; and the error
    [sqlite3] really raises, "Cannot operate on a closed database.", whose
    text does not contain the lower-case phrase, does not propagate
    unchanged. *)
Lemma wrap_exceptions_closed_database_counterexample :
  ~ (forall (exc_type : string -> Py.exn) (message : string) (e : Py.exn)
            (db : Sqlite.Connection),
       Py.isinstance e Py.sqlite3_ProgrammingError = true ->
       Py.contains "cannot operate on a closed database" (Py.str e) = true ->
       exists r,
         SqliteUtils.wrap_exceptions exc_type message (Sqlite.raise (A := unit) e) db
           = (db, Py.Raise r) /\
         Py.cause r = Some e) /\
  ~ (forall (exc_type : string -> Py.exn) (message : string) (e : Py.exn)
            (db : Sqlite.Connection),
       Py.isinstance e Py.sqlite3_ProgrammingError = true ->
       Py.contains "cannot operate on a closed database" (Py.str e) = false ->
       SqliteUtils.wrap_exceptions exc_type message (Sqlite.raise (A := unit) e) db
         = (db, Py.Raise e)).
Proof.
  split.
  - intros H.
    destruct (H Samples.StorageError "unexpected error"%string
                (Py.new Py.sqlite3_ProgrammingError
                   "cannot operate on a closed database")
                Samples.fresh_connection eq_refl eq_refl) as (r & Heq & Hcause).
    vm_compute in Heq. injection Heq as <-. discriminate Hcause.
  - intros H.
    specialize (H Samples.StorageError "unexpected error"%string
                  Samples.closed_database_error Samples.fresh_connection
                  eq_refl eq_refl).
    vm_compute in H. discriminate H.
Qed.

(** ** [rowcount_exactly_one] and the flag operations *)

Section FlagFacts.
Import Py SqliteUtils Storage.

Variables (feed_url id : string) (set : entry_row -> entry_row).

Lemma is_entry_key r :
  is_entry feed_url id r = true <-> (entry_id r, feed r) = (id, feed_url).
Proof.
  unfold is_entry. rewrite andb_true_iff, !bool_decide_eq_true.
  split; [intros [-> ->]; reflexivity | intros [= -> ->]; auto].
Qed.

(** Under the primary key, the [UPDATE] touches no row or exactly one. *)
Lemma update_where_unique entries :
  primary_key entries ->
  (Forall (fun r => is_entry feed_url id r = false) entries /\
   update_where feed_url id set entries = (entries, 0)) \/
  (exists before r after,
     entries = before ++ r :: after /\
     is_entry feed_url id r = true /\
     update_where feed_url id set entries = (before ++ set r :: after, 1)).
Proof.
  unfold primary_key, update_where.
  induction entries as [| r rest IH]; intros Hpk; [left; split; [constructor | reflexivity] |].
  cbn [map] in Hpk. apply NoDup_cons in Hpk as [Hfresh Hrest].
  specialize (IH Hrest). cbn [map List.filter].
  destruct (is_entry feed_url id r) eqn:Hr.
  - right. exists [], r, rest. split; [reflexivity |]. split; [exact Hr |].
    destruct IH as [[Hnone IH] | (before & r' & after & -> & Hr' & _)].
    + injection IH as Hmap Hlen. cbn [length app]. rewrite Hmap.
      f_equal. lia.
    + exfalso. apply Hfresh. apply is_entry_key in Hr, Hr'. rewrite Hr, <- Hr'.
      rewrite map_app. apply elem_of_app. right. left.
  - destruct IH as [[Hnone IH] | (before & r' & after & -> & Hr' & IH)].
    + left. split; [constructor; assumption |].
      injection IH as Hmap Hlen. rewrite Hmap. f_equal. exact Hlen.
    + right. exists (r :: before), r', after. split; [reflexivity |].
      split; [exact Hr' |].
      injection IH as Hmap Hlen. rewrite Hmap. cbn [app]. f_equal. exact Hlen.
Qed.

End FlagFacts.




(** ** [LocalConnectionFactory] *)

Section FactoryFacts.
Import Py Factory.

Variable t0 : thread.
Variable c0 : context.

Local Abbreviation consistent := (Factory.consistent t0 c0).

Lemma init_consistent path hook cst : consistent (__init__ path hook cst t0 c0).
Proof.
  split; cbn.
  - apply lookup_singleton_eq.
  - reflexivity.
  - intros c db H. apply lookup_singleton_Some in H as [_ <-]. lia.
  - intros c db H. apply lookup_singleton_Some in H as [<- _]. lia.
Qed.

(** Closing changes nothing but the set of closed connections. *)
Lemma db_close_cases t db f :
  fst (db_close t db f) = f \/ fst (db_close t db f) = mark_closed db f.
Proof.
  unfold db_close. destruct (connected f !! db) as [made_by |]; [| auto].
  destruct (_ && _); auto.
Qed.

Lemma _close_cases t c f :
  fst (_close t c f) = f \/ exists db, fst (_close t c f) = mark_closed db f.
Proof.
  unfold _close. destruct (_local f !! c) as [db |]; [| auto].
  destruct (before_close f t db _) as [? | e].
  - destruct (db_close_cases t db f); eauto.
  - destruct (isinstance e sqlite3_ProgrammingError); [| auto].
    destruct (contains _ _); [| auto].
    destruct (db_close_cases t db f); eauto.
Qed.

Lemma close_cases t c f :
  fst (close t c f) = f \/ exists db, fst (close t c f) = mark_closed db f.
Proof.
  unfold close. destruct (bool_decide _); [apply _close_cases | auto].
Qed.

Lemma after_app h1 h2 f : after (h1 ++ h2) f = after h2 (after h1 f).
Proof. unfold after. apply fold_left_app. Qed.

Lemma after_cons ev history f :
  after (ev :: history) f = after history (perform ev f).
Proof. reflexivity. Qed.

Lemma born_app h1 h2 : born (h1 ++ h2) = (born h1 + born h2)%nat.
Proof.
  induction h1 as [| [t c m | | c] h1 IH]; cbn; [reflexivity | exact IH | lia | lia].
Qed.

(** What no event changes. *)
Lemma perform_static ev f :
  path (perform ev f) = path f /\
  before_close (perform ev f) = before_close f /\
  check_same_thread (perform ev f) = check_same_thread f /\
  _main (perform ev f) = _main f.
Proof.
  destruct ev as [t c m | | c]; cbn; auto.
  case_bool_decide; [| auto]. destruct m; auto.
  - unfold __enter__. destruct (_local f !! c); cbn; auto.
  - unfold __exit__. destruct (_close_cases t c f) as [-> | [db ->]]; cbn; auto.
  - destruct (close_cases t c f) as [-> | [db ->]]; cbn; auto.
Qed.

Lemma after_static history : forall f,
  path (after history f) = path f /\
  before_close (after history f) = before_close f /\
  check_same_thread (after history f) = check_same_thread f /\
  _main (after history f) = _main f.
Proof.
  induction history as [| ev history IH]; intros f; [auto |].
  rewrite after_cons. destruct (IH (perform ev f)) as (-> & -> & -> & ->).
  apply perform_static.
Qed.

Lemma perform_contexts ev f :
  contexts (perform ev f) = (contexts f + born [ev])%nat.
Proof.
  destruct ev as [t c m | | c]; cbn; [| lia | lia].
  rewrite Nat.add_0_r. case_bool_decide; [| reflexivity]. destruct m; auto.
  - unfold __enter__. destruct (_local f !! c); reflexivity.
  - unfold __exit__. destruct (_close_cases t c f) as [-> | [db ->]]; reflexivity.
  - destruct (close_cases t c f) as [-> | [db ->]]; reflexivity.
Qed.

Lemma after_contexts history : forall f,
  contexts (after history f) = (contexts f + born history)%nat.
Proof.
  induction history as [| ev history IH]; intros f; [cbn; lia |].
  rewrite after_cons, IH, perform_contexts. change (ev :: history) with ([ev] ++ history).
  rewrite born_app. lia.
Qed.

(** How a context comes to hold a connection. *)
Lemma perform_local ev f c db :
  _local (perform ev f) !! c = Some db ->
  _local f !! c = Some db \/
  (exists t, ev = Call t c Enter /\ (c < contexts f)%nat /\
             _local f !! c = None /\ db = length (connected f)) \/
  (exists src, ev = Copy_context src /\ c = contexts f /\
               _local f !! src = Some db).
Proof.
  destruct ev as [t c' m | | src]; cbn; auto.
  - case_bool_decide as Hc'; [| auto]. destruct m; auto.
    + unfold __enter__. destruct (_local f !! c') eqn:Hheld; [auto |]. cbn.
      rewrite lookup_insert. case_decide as Hsame; [| auto].
      subst c'. intros [= <-]. right. left. eauto 6.
    + unfold __exit__. destruct (_close_cases t c' f) as [-> | [db' ->]]; auto.
    + destruct (close_cases t c' f) as [-> | [db' ->]]; auto.
  - destruct (_local f !! src) as [db' |] eqn:Hsrc; [| auto].
    rewrite lookup_insert. case_decide as Hsame; [| auto].
    subst c. intros [= <-]. right. right. eauto.
Qed.

(** A context that holds a connection keeps that very connection. *)
Lemma perform_keeps ev f c db :
  (c < contexts f)%nat ->
  _local f !! c = Some db -> _local (perform ev f) !! c = Some db.
Proof.
  intros Hc Hheld. destruct ev as [t c' m | | src]; cbn; auto.
  - case_bool_decide; [| auto]. destruct m; auto.
    + unfold __enter__. destruct (_local f !! c') eqn:Hheld'; [auto |]. cbn.
      rewrite lookup_insert_ne; [exact Hheld | congruence].
    + unfold __exit__. destruct (_close_cases t c' f) as [-> | [db' ->]]; auto.
    + destruct (close_cases t c' f) as [-> | [db' ->]]; auto.
  - destruct (_local f !! src); [| auto].
    rewrite lookup_insert_ne; [exact Hheld | lia].
Qed.

Lemma after_keeps history : forall f c db,
  (c < contexts f)%nat ->
  _local f !! c = Some db -> _local (after history f) !! c = Some db.
Proof.
  induction history as [| ev history IH]; intros f c db Hc Hheld; [exact Hheld |].
  rewrite after_cons. apply IH; [| by apply perform_keeps].
  rewrite perform_contexts. lia.
Qed.

(** The connections made are never forgotten. *)
Lemma perform_connected ev f :
  exists more, connected (perform ev f) = connected f ++ more.
Proof.
  destruct ev as [t c m | | c]; cbn; try (exists []; by rewrite app_nil_r).
  case_bool_decide; [| exists []; by rewrite app_nil_r]. destruct m.
  - exists []. by rewrite app_nil_r.
  - unfold __enter__. destruct (_local f !! c); cbn;
      [exists []; by rewrite app_nil_r | by exists [t]].
  - exists []. rewrite app_nil_r. unfold __exit__.
    destruct (_close_cases t c f) as [-> | [db ->]]; reflexivity.
  - exists []. rewrite app_nil_r.
    destruct (close_cases t c f) as [-> | [db ->]]; reflexivity.
Qed.

Lemma perform_consistent ev f : consistent f -> consistent (perform ev f).
Proof.
  intros [Hmain Hmade Hknown Hctx].
  destruct (perform_static ev f) as (_ & _ & _ & Hsame).
  destruct (perform_connected ev f) as [more Hmore].
  split.
  - rewrite Hsame. apply perform_keeps; [by eapply Hctx | exact Hmain].
  - rewrite Hsame, Hmore. by apply lookup_app_l_Some.
  - intros c db Hheld. rewrite Hmore, length_app.
    apply perform_local in Hheld
      as [Hheld | [(t & -> & Hc & Hnone & ->) | (src & -> & -> & Hheld)]].
    + apply Hknown in Hheld. lia.
    + cbn in Hmore. rewrite bool_decide_eq_true_2 in Hmore by exact Hc.
      unfold __enter__ in Hmore. rewrite Hnone in Hmore. cbn in Hmore.
      apply app_inv_head in Hmore. subst more. cbn. lia.
    + apply Hknown in Hheld. lia.
  - intros c db Hheld. rewrite perform_contexts.
    apply perform_local in Hheld
      as [Hheld | [(t & -> & Hc & _ & ->) | (src & -> & -> & Hheld)]].
    + apply Hctx in Hheld. lia.
    + lia.
    + cbn. lia.
Qed.

Lemma after_consistent history : forall f,
  consistent f -> consistent (after history f).
Proof.
  induction history as [| ev history IH]; intros f Hf; [exact Hf |].
  rewrite after_cons. apply IH, perform_consistent, Hf.
Qed.

(** The two notions grow with the history. *)
Lemma entered_app history more c :
  entered c0 history c -> entered c0 (history ++ more) c.
Proof.
  intros [h | before t c' later Hc' | before c' later Hsrc].
  - apply entered_creator.
  - rewrite <- app_assoc. cbn. by apply entered_enter.
  - rewrite <- app_assoc. cbn. by apply entered_copy.
Qed.

Lemma descends_app history more c :
  descends c0 history c -> descends c0 (history ++ more) c.
Proof.
  intros [h | before c' later Hsrc].
  - apply descends_creator.
  - rewrite <- app_assoc. cbn. by apply descends_copy.
Qed.

Section Reached.
Variable path : string.
Variable hook : thread -> conn -> bool -> outcome unit.
Variable cst : bool.

Local Abbreviation made := (__init__ path hook cst t0 c0).

Lemma reached_consistent history : consistent (after history made).
Proof. apply after_consistent, init_consistent. Qed.

Lemma reached_main history : _main (after history made) = 0%nat.
Proof. by destruct (after_static history made) as (_ & _ & _ & ->). Qed.

Lemma reached_contexts history :
  contexts (after history made) = (S c0 + born history)%nat.
Proof. by rewrite after_contexts. Qed.

(** A context that holds a connection has entered. *)
Lemma local_entered history : forall c,
  is_Some (_local (after history made) !! c) -> entered c0 history c.
Proof.
  induction history as [| ev history IH] using rev_ind; intros c [db Hheld].
  - cbn in Hheld. apply lookup_singleton_Some in Hheld as [<- _].
    apply entered_creator.
  - rewrite after_app, after_cons in Hheld. cbn [after fold_left] in Hheld.
    apply perform_local in Hheld
      as [Hheld | [(t & -> & Hc & _ & ->) | (src & -> & -> & Hheld)]].
    + apply entered_app, IH. eauto.
    + apply entered_enter. by rewrite <- reached_contexts.
    + rewrite reached_contexts. apply entered_copy, IH. eauto.
Qed.

(** A context that holds the main connection descends from the creating
    context. *)
Lemma local_descends history : forall c,
  _local (after history made) !! c = Some 0%nat -> descends c0 history c.
Proof.
  induction history as [| ev history IH] using rev_ind; intros c Hheld.
  - cbn in Hheld. apply lookup_singleton_Some in Hheld as [<- _].
    apply descends_creator.
  - rewrite after_app, after_cons in Hheld. cbn [after fold_left] in Hheld.
    apply perform_local in Hheld
      as [Hheld | [(t & -> & Hc & _ & Hnew) | (src & -> & -> & Hheld)]].
    + by apply descends_app, IH.
    + pose proof (main_made_by _ _ _ (reached_consistent history)) as Hmade.
      apply lookup_lt_Some in Hmade. rewrite reached_main in Hmade. lia.
    + rewrite reached_contexts. by apply descends_copy, IH.
Qed.

(** A context that descends from the creating context holds the main
    connection. *)
Lemma descends_local history c :
  descends c0 history c -> _local (after history made) !! c = Some 0%nat.
Proof.
  induction 1 as [history | before c later Hsrc IH].
  - rewrite <- (reached_main history).
    apply (main_is_creators _ _ _ (reached_consistent history)).
  - rewrite after_app, after_cons.
    apply after_keeps.
    + rewrite perform_contexts, reached_contexts. cbn. lia.
    + cbn. rewrite IH, reached_contexts. apply lookup_insert_eq.
Qed.

End Reached.

Lemma mark_closed_again db f : mark_closed db (mark_closed db f) = mark_closed db f.
Proof.
  unfold mark_closed. cbn. f_equal.
  rewrite (assoc_L (∪)), union_idemp_L. reflexivity.
Qed.

End FactoryFacts.


(** The places of an event in a history that is written out. *)
Ltac split_history :=
  repeat match goal with
         | H : ?before ++ _ :: _ = _ |- _ =>
             is_var before; destruct before; simplify_eq/=
         end.



(** ** The context managers *)

Section ContextManagerFacts.
Import Py Sqlite SqliteUtils.
Context {A : Type}.
Implicit Types (body : M A) (db : Connection).

Lemma connection_eta db :
  {| isolation_level := isolation_level db; foreign_keys := foreign_keys db;
     txn := txn db; content := content db |} = db.
Proof. destruct db; reflexivity. Qed.

Lemma in_transaction_false db : in_transaction db = false <-> txn db = None.
Proof. unfold in_transaction. destruct (txn db); split; congruence. Qed.

Lemma foreign_keys_off_inside body db :
  in_transaction db = true ->
  foreign_keys_off body db =
    (db, Raise (new AssertionError
                  "foreign_keys_off must be used outside transactions")).
Proof. intros H. unfold foreign_keys_off. rewrite H. reflexivity. Qed.

Lemma foreign_keys_off_outside body db db2 r :
  in_transaction db = false ->
  body (fst (set_pragma_foreign_keys false db)) = (db2, r) ->
  foreign_keys_off body db =
    (fst (set_pragma_foreign_keys (foreign_keys db) db2), r).
Proof.
  intros Hout Hbody. unfold foreign_keys_off. rewrite Hout.
  apply in_transaction_false in Hout.
  unfold bind, pragma_foreign_keys, try_finally.
  unfold set_pragma_foreign_keys in *. rewrite Hout in *. cbn [fst] in Hbody.
  rewrite Hbody. destruct (foreign_keys db), (txn db2); reflexivity.
Qed.

(** The three ways out of [ddl_transaction] for a body that leaves the
    transaction open. *)
Lemma ddl_transaction_commits body db db2 x s :
  body (fst (execute_BEGIN (fst (set_isolation_level None db)))) = (db2, Return x) ->
  txn db2 = Some s ->
  ddl_transaction body db =
    (fst (set_isolation_level (isolation_level db) (fst (execute_COMMIT db2))),
     Return x).
Proof.
  intros Hbody Hopen. unfold ddl_transaction, try_finally, try_except, bind.
  cbn [set_isolation_level execute_BEGIN txn fst] in *. rewrite Hbody.
  unfold execute_COMMIT, ret. rewrite Hopen.
  destruct (isolation_level db); reflexivity.
Qed.

Lemma ddl_transaction_rolls_back body db db2 e s :
  body (fst (execute_BEGIN (fst (set_isolation_level None db)))) = (db2, Raise e) ->
  isinstance e Exception = true ->
  txn db2 = Some s ->
  ddl_transaction body db =
    (fst (set_isolation_level (isolation_level db) (fst (execute_ROLLBACK db2))),
     Raise e).
Proof.
  intros Hbody Hexc Hopen.
  unfold ddl_transaction, try_finally, try_except, bind.
  cbn [set_isolation_level execute_BEGIN txn fst] in *. rewrite Hbody.
  cbn [List.find fst]. rewrite Hexc.
  unfold execute_ROLLBACK, raise. rewrite Hopen.
  destruct (isolation_level db); reflexivity.
Qed.

Lemma ddl_transaction_passes body db db2 e :
  body (fst (execute_BEGIN (fst (set_isolation_level None db)))) = (db2, Raise e) ->
  isinstance e Exception = false ->
  ddl_transaction body db =
    (fst (set_isolation_level (isolation_level db) db2), Raise e).
Proof.
  intros Hbody Hexc.
  unfold ddl_transaction, try_finally, try_except, bind.
  cbn [set_isolation_level execute_BEGIN txn fst] in *. rewrite Hbody.
  cbn [List.find fst]. rewrite Hexc.
  destruct (isolation_level db); reflexivity.
Qed.

(** [isolation_level] is restored whatever happens. *)
Lemma ddl_transaction_isolation_level body db :
  isolation_level (fst (ddl_transaction body db)) = isolation_level db.
Proof.
  unfold ddl_transaction, try_finally.
  destruct (try_except _ _ db) as [db' r].
  unfold set_isolation_level. destruct (isolation_level db); reflexivity.
Qed.

End ContextManagerFacts.

(** C9 (as amended). Entered inside a transaction, [foreign_keys_off] fails
    its assertion and does nothing. Entered outside one, it runs the block with
    foreign keys OFF and, whether the block returns or raises, ends by
    executing the PRAGMA that sets foreign keys to the value read on entry
    (ON or OFF), passing the block's outcome on; the setting is then the
    one read on entry whenever the block has left no transaction open. *)
Theorem foreign_keys_off_restores {A : Type} (body : Sqlite.M A)
    (db : Sqlite.Connection) :
  (Sqlite.in_transaction db = true ->
   SqliteUtils.foreign_keys_off body db =
     (db, Py.Raise (Py.new Py.AssertionError
                      "foreign_keys_off must be used outside transactions"))) /\
  (Sqlite.in_transaction db = false ->
   let entry := fst (Sqlite.set_pragma_foreign_keys false db) in
   Sqlite.foreign_keys entry = false /\
   forall db2 r,
     body entry = (db2, r) ->
     SqliteUtils.foreign_keys_off body db =
       (fst (Sqlite.set_pragma_foreign_keys (Sqlite.foreign_keys db) db2), r) /\
     (Sqlite.in_transaction db2 = false ->
      Sqlite.foreign_keys (fst (SqliteUtils.foreign_keys_off body db))
        = Sqlite.foreign_keys db)).
Proof.
  split; [apply foreign_keys_off_inside |].
  intros Hout entry. split.
  - unfold entry, Sqlite.set_pragma_foreign_keys.
    apply in_transaction_false in Hout. rewrite Hout. reflexivity.
  - intros db2 r Hbody. split.
    + by apply foreign_keys_off_outside.
    + intros Hclosed. rewrite (foreign_keys_off_outside _ _ _ _ Hout Hbody).
      apply in_transaction_false in Hclosed.
      unfold Sqlite.set_pragma_foreign_keys. rewrite Hclosed. reflexivity.
Qed.

Lemma foreign_keys_off_restores_witness :
  SqliteUtils.foreign_keys_off
    (Sqlite.raise (A := unit) (Py.new Py.ValueError "boom"))
    Samples.fresh_connection
  = (Samples.fresh_connection, Py.Raise (Py.new Py.ValueError "boom")).
Proof.
  destruct (foreign_keys_off_restores
              (Sqlite.raise (A := unit) (Py.new Py.ValueError "boom"))
              Samples.fresh_connection) as [_ Hout].
  destruct (Hout eq_refl) as [_ Hexit].
  destruct (Hexit _ _ eq_refl) as [Heq _]. exact Heq.
Defined.

(** C9, as stated, fails when the block leaves a transaction open: the
    PRAGMA that restores the setting is executed, has no effect inside the
    transaction, and foreign keys stay OFF on a connection that had them
    ON. *)
Lemma foreign_keys_off_restores_counterexample :
  ~ (forall (body : Sqlite.M unit) (db : Sqlite.Connection),
       Sqlite.in_transaction db = false ->
       Sqlite.foreign_keys (fst (SqliteUtils.foreign_keys_off body db))
         = Sqlite.foreign_keys db).
Proof.
  intros H.
  specialize (H Sqlite.execute_BEGIN Samples.fresh_connection eq_refl).
  vm_compute in H. discriminate H.
Qed.

(** ** [migrate] under its two context managers *)

Section MigrateFacts.
Import Py Sqlite SqliteUtils.
Implicit Types (db : Connection) (self : HeavyMigration).

Lemma enter_block db :
  txn db = None ->
  fst (execute_BEGIN
         (fst (set_isolation_level None (fst (set_pragma_foreign_keys false db)))))
  = in_block db.
Proof.
  intros Hout. unfold set_pragma_foreign_keys. rewrite Hout. reflexivity.
Qed.

Lemma committed_same db : txn db = None -> committed db (content db) = db.
Proof. intros Hout. destruct db; cbn in *. subst. reflexivity. Qed.

Section Block.
Context {A : Type}.
Variable body : M A.
Variable db : Connection.
Hypothesis outside : txn db = None.

Let ddl_entry :
  fst (execute_BEGIN
         (fst (set_isolation_level None (fst (set_pragma_foreign_keys false db)))))
  = in_block db := enter_block db outside.

Lemma block_returns db2 x s :
  body (in_block db) = (db2, Return x) ->
  txn db2 = Some s ->
  foreign_keys_off (ddl_transaction body) db =
    (committed db (content db2), Return x).
Proof.
  intros Hbody Hopen.
  erewrite foreign_keys_off_outside;
    [| by apply in_transaction_false
     | apply ddl_transaction_commits with (s := s);
       [ rewrite ddl_entry; exact Hbody | exact Hopen ] ].
  unfold execute_COMMIT, set_isolation_level, set_pragma_foreign_keys, committed.
  rewrite outside, Hopen. cbn. destruct (isolation_level db); reflexivity.
Qed.

Lemma block_raises db2 e s :
  body (in_block db) = (db2, Raise e) ->
  isinstance e Exception = true ->
  txn db2 = Some s ->
  foreign_keys_off (ddl_transaction body) db = (committed db s, Raise e).
Proof.
  intros Hbody Hexc Hopen.
  erewrite foreign_keys_off_outside;
    [| by apply in_transaction_false
     | apply ddl_transaction_rolls_back with (s := s);
       [ rewrite ddl_entry; exact Hbody | exact Hexc | exact Hopen ] ].
  unfold execute_ROLLBACK, set_isolation_level, set_pragma_foreign_keys, committed.
  rewrite outside, Hopen. cbn. destruct (isolation_level db); reflexivity.
Qed.

Lemma block_interrupted db2 e :
  body (in_block db) = (db2, Raise e) ->
  isinstance e Exception = false ->
  snd (foreign_keys_off (ddl_transaction body) db) = Raise e.
Proof.
  intros Hbody Hexc.
  erewrite foreign_keys_off_outside;
    [| by apply in_transaction_false
     | apply ddl_transaction_passes;
       [ rewrite ddl_entry; exact Hbody | exact Hexc ] ].
  reflexivity.
Qed.

End Block.

(** Pieces that leave the transaction as it is. *)
Lemma keeps_bind {A B} (m : M A) (k : A -> M B) :
  keeps_transaction m -> (forall a, keeps_transaction (k a)) ->
  keeps_transaction (bind m k).
Proof.
  intros Hm Hk db. unfold bind. specialize (Hm db).
  destruct (m db) as [db1 [a | e]]; cbn in *; [| exact Hm].
  rewrite (Hk a db1). exact Hm.
Qed.

Lemma keeps_ret {A} (a : A) : keeps_transaction (ret a).
Proof. intros db. reflexivity. Qed.

Lemma keeps_raise {A} e : keeps_transaction (raise (A := A) e).
Proof. intros db. reflexivity. Qed.

Lemma keeps_get_int_pragma p : keeps_transaction (get_int_pragma p).
Proof. intros db. reflexivity. Qed.

Lemma keeps_set_int_pragma p v lb : keeps_transaction (set_int_pragma p v lb).
Proof.
  intros db. unfold set_int_pragma.
  destruct lb as [lb |]; [destruct (v <? lb) |]; reflexivity.
Qed.

Lemma keeps_table_count : keeps_transaction table_count.
Proof. intros db. reflexivity. Qed.

Lemma keeps_foreign_key_check_handled to_version :
  keeps_transaction
    (try_except foreign_key_check
       [(IntegrityError,
         fun e => raise (from (new IntegrityError
                                 ("after migrating to version "
                                  +:+ str_int to_version +:+ ": " +:+ str e))
                              None))]).
Proof.
  intros db. unfold try_except, foreign_key_check.
  destruct (foreign_key_check_rows (content db)); reflexivity.
Qed.

Lemma keeps_for_each {X} (xs : list X) (f : X -> M unit) :
  (forall x, keeps_transaction (f x)) -> keeps_transaction (for_each xs f).
Proof.
  intros Hf. induction xs as [| x xs IH]; cbn [for_each].
  - apply keeps_ret.
  - apply keeps_bind; [apply Hf | intros _; exact IH].
Qed.

Lemma keeps_migrate_step self version from_version :
  keep_transaction self ->
  keeps_transaction (migrate_step self version from_version).
Proof.
  intros [_ Hms]. unfold migrate_step.
  destruct (migrations self !! from_version) as [m |] eqn:Hm; [| apply keeps_raise].
  apply keeps_bind; [apply keeps_set_int_pragma | intros _].
  apply keeps_bind; [eapply Hms; exact Hm | intros _].
  apply keeps_foreign_key_check_handled.
Qed.

Lemma keeps_migrate_body self :
  keep_transaction self -> keeps_transaction (migrate_body self).
Proof.
  intros Hself. unfold migrate_body. apply keeps_bind.
  - unfold check_id. case_bool_decide; [apply keeps_ret |].
    apply keeps_bind; [apply keeps_get_int_pragma | intros i].
    destruct (_ && _); [apply keeps_raise | apply keeps_ret].
  - intros stored_id. unfold migrate_from.
    apply keeps_bind; [apply keeps_get_int_pragma | intros v].
    case_bool_decide.
    { apply keeps_bind; [apply keeps_table_count | intros n].
      case_bool_decide; [apply keeps_raise |].
      apply keeps_bind; [apply Hself | intros _].
      apply keeps_bind; [apply keeps_set_int_pragma | intros _].
      apply keeps_bind; [apply keeps_set_int_pragma | intros _].
      apply keeps_ret. }
    case_bool_decide.
    { destruct stored_id as [[| |] |]; (apply keeps_raise || apply keeps_ret). }
    destruct (_ <? _); [apply keeps_raise |].
    apply keeps_bind.
    + apply keeps_for_each. intros x. by apply keeps_migrate_step.
    + intros _. unfold check_id_after. case_bool_decide; [apply keeps_ret |].
      apply keeps_bind; [apply keeps_get_int_pragma | intros i].
      case_bool_decide; [apply keeps_raise | apply keeps_ret].
Qed.

(** Atomicity: a failing [migrate] whose functions leave the
    transaction open gives the connection back as it found it. *)
Lemma migrate_fails_unchanged self db db' e :
  keep_transaction self ->
  migrate self db = (db', Raise e) ->
  isinstance e Exception = true ->
  db' = db.
Proof.
  intros Hself Hfail Hexc. unfold migrate in Hfail.
  destruct (in_transaction db) eqn:Hin.
  - rewrite foreign_keys_off_inside in Hfail by exact Hin. congruence.
  - apply in_transaction_false in Hin.
    pose proof (keeps_migrate_body self Hself (in_block db)) as Hopen.
    destruct (migrate_body self (in_block db)) as [db2 [[] | e2]] eqn:Hbody;
      cbn [fst txn in_block] in Hopen.
    + rewrite (block_returns _ _ Hin _ _ _ Hbody Hopen) in Hfail. discriminate.
    + destruct (isinstance e2 Exception) eqn:Hexc2.
      * rewrite (block_raises _ _ Hin _ _ _ Hbody Hexc2 Hopen) in Hfail.
        injection Hfail as <- _. by apply committed_same.
      * pose proof (block_interrupted _ _ Hin _ _ Hbody Hexc2) as Hsnd.
        rewrite Hfail in Hsnd. cbn in Hsnd. congruence.
Qed.

End MigrateFacts.


Lemma sample_keeps_transaction :
  SqliteUtils.keep_transaction (Samples.migration_with Samples.create_feeds).
Proof.
  split; [intros db; reflexivity |].
  intros v m Hm. cbn in Hm.
  apply lookup_insert_Some in Hm as [[_ <-] | [_ Hm]]; [intros db; reflexivity |].
  apply lookup_singleton_Some in Hm as [_ <-]. intros db. reflexivity.
Defined.

Lemma failing_create_keeps_transaction :
  SqliteUtils.keep_transaction (Samples.migration_with Samples.failing_create).
Proof.
  split; [intros db; reflexivity |]. apply sample_keeps_transaction.
Defined.



(** ** The integer pragmas *)

Lemma as_int32_in_range (v : Z) :
  Sqlite.INT32_MIN <= v <= Sqlite.INT32_MAX -> Sqlite.as_int32 v = v.
Proof.
  intros [Hlo Hhi]. unfold Sqlite.as_int32.
  destruct (Z.leb_spec Sqlite.INT32_MIN v); [| lia].
  destruct (Z.leb_spec v Sqlite.INT32_MAX); [reflexivity | lia].
Qed.

Lemma as_int32_beyond (v : Z) : Sqlite.INT32_MAX < v -> Sqlite.as_int32 v = 0.
Proof.
  intros Hhi. unfold Sqlite.as_int32.
  destruct (Z.leb_spec v Sqlite.INT32_MAX); [lia |]. by rewrite andb_false_r.
Qed.

Lemma write_pragma_in_range p (v : Z) d :
  0 <= v <= Sqlite.INT32_MAX -> Sqlite.write_pragma p v d = Sqlite.put_pragma p v d.
Proof.
  intros Hv. unfold Sqlite.write_pragma. rewrite as_int32_in_range; [reflexivity |].
  unfold Sqlite.INT32_MIN. lia.
Qed.

Lemma set_int_pragma_in_range p (v : Z) db :
  0 <= v <= Sqlite.INT32_MAX ->
  SqliteUtils.set_int_pragma p v (Some 0) db =
    (Sqlite.with_content (Sqlite.put_pragma p v) db, Py.Return tt).
Proof.
  intros Hv. unfold SqliteUtils.set_int_pragma.
  destruct (Z.ltb_spec v 0); [lia |].
  unfold Sqlite.with_content. by rewrite write_pragma_in_range.
Qed.

(** ** [migrate]: the dispatch on the stored version *)

Section DispatchFacts.
Import Py Sqlite SqliteUtils.
Variable self : HeavyMigration.
Variable db : Connection.
Hypothesis gate : id_check_passes self db.

Lemma id_check_passes_in_block : id_check_passes self (in_block db).
Proof. exact gate. Qed.

Local Abbreviation stored_id := (SqliteUtils.stored_id self db).

Lemma check_id_passes c :
  content c = content db ->
  check_id self c = (c, Return stored_id).
Proof.
  intros Hc. unfold check_id, stored_id.
  case_bool_decide as Hid; [reflexivity |].
  unfold bind, get_id, get_int_pragma. cbn [read_pragma]. rewrite Hc.
  destruct gate as [? | [H0 | Heq]]; [contradiction | |].
  - rewrite H0. reflexivity.
  - rewrite Heq. rewrite (bool_decide_eq_false_2 (id self <> id self)) by auto.
    rewrite andb_false_r. reflexivity.
Qed.

Lemma migrate_body_passes c :
  content c = content db ->
  migrate_body self c = migrate_from self stored_id c.
Proof.
  intros Hc. unfold migrate_body, bind at 1. rewrite check_id_passes by exact Hc.
  reflexivity.
Qed.

Lemma migrate_from_newer c :
  0 < version self ->
  version self < user_version (content c) ->
  migrate_from self stored_id c =
    (c, Raise (new SchemaVersionError
                 ("invalid version: " +:+ str_int (user_version (content c))))).
Proof.
  intros Hpos Hnewer. unfold migrate_from, bind, get_version, get_int_pragma.
  cbn [read_pragma].
  rewrite bool_decide_eq_false_2 by lia.
  rewrite bool_decide_eq_false_2 by lia.
  destruct (Z.ltb_spec (version self) (user_version (content c))); [| lia].
  reflexivity.
Qed.

Lemma migrate_from_tables c :
  user_version (content c) = 0 ->
  sqlite_master (content c) <> [] ->
  migrate_from self stored_id c =
    (c, Raise (new DBError "database with no version already has tables")).
Proof.
  intros Hzero Htables. unfold migrate_from, bind, get_version, get_int_pragma.
  cbn [read_pragma]. rewrite bool_decide_eq_true_2 by exact Hzero.
  unfold table_count.
  rewrite bool_decide_eq_true_2; [reflexivity |].
  destruct (sqlite_master (content c)); [contradiction | cbn; lia].
Qed.

Lemma migrate_from_create c :
  user_version (content c) = 0 ->
  sqlite_master (content c) = [] ->
  migrate_from self stored_id c =
    (create self ;; set_version (version self) ;; set_id (id self) ;; ret tt) c.
Proof.
  intros Hzero Htables. unfold migrate_from, bind at 1, get_version, get_int_pragma.
  cbn [read_pragma]. rewrite bool_decide_eq_true_2 by exact Hzero.
  unfold bind at 1, table_count. rewrite Htables. cbn [length].
  rewrite bool_decide_eq_false_2 by auto. reflexivity.
Qed.

End DispatchFacts.

(** C2 (as amended). On a connection outside a transaction, for a
    configuration with a positive version, a database whose stored id
    passes the id check and whose stored version is greater than the
    configured one makes [migrate] raise
    [SchemaVersionError("invalid version: <stored version>")], and the
    connection is left as it was. *)
Theorem migrate_newer_version (self : SqliteUtils.HeavyMigration)
    (db : Sqlite.Connection) :
  Sqlite.in_transaction db = false ->
  SqliteUtils.id_check_passes self db ->
  0 < SqliteUtils.version self ->
  SqliteUtils.version self < Sqlite.user_version (Sqlite.content db) ->
  SqliteUtils.migrate self db =
    (db, Py.Raise (Py.new Py.SchemaVersionError
                     ("invalid version: "
                      +:+ Py.str_int (Sqlite.user_version (Sqlite.content db))))).
Proof.
  intros Hout Hgate Hpos Hnewer. apply in_transaction_false in Hout.
  unfold SqliteUtils.migrate.
  erewrite (block_raises _ db Hout (SqliteUtils.in_block db) _ (Sqlite.content db)).
  - rewrite committed_same by exact Hout. reflexivity.
  - rewrite (migrate_body_passes self db Hgate) by reflexivity.
    by apply (migrate_from_newer self db (SqliteUtils.in_block db)).
  - reflexivity.
  - reflexivity.
Qed.

Lemma migrate_newer_version_witness :
  SqliteUtils.migrate (Samples.migration_with Samples.create_feeds)
    (Samples.connection_on (Samples.database_at 5 Samples.app_id))
  = (Samples.connection_on (Samples.database_at 5 Samples.app_id),
     Py.Raise (Py.new Py.SchemaVersionError "invalid version: 5")).
Proof.
  apply (migrate_newer_version (Samples.migration_with Samples.create_feeds)
           (Samples.connection_on (Samples.database_at 5 Samples.app_id))).
  - reflexivity.
  - right. right. reflexivity.
  - reflexivity.
  - reflexivity.
Defined.

(** C2, as stated, fails on a database stamped with another application's
    id ([IdError] comes first), on a connection inside a transaction (the
    assertion of [foreign_keys_off] fails), and for a configured version
    that is not positive, when the stored version is 0. *)
Lemma migrate_newer_version_counterexample :
  ~ (forall (self : SqliteUtils.HeavyMigration) (db : Sqlite.Connection),
       Sqlite.in_transaction db = false ->
       0 < SqliteUtils.version self ->
       SqliteUtils.version self < Sqlite.user_version (Sqlite.content db) ->
       snd (SqliteUtils.migrate self db) =
         Py.Raise (Py.new Py.SchemaVersionError
                     ("invalid version: "
                      +:+ Py.str_int (Sqlite.user_version (Sqlite.content db))))) /\
  ~ (forall (self : SqliteUtils.HeavyMigration) (db : Sqlite.Connection),
       SqliteUtils.id_check_passes self db ->
       0 < SqliteUtils.version self ->
       SqliteUtils.version self < Sqlite.user_version (Sqlite.content db) ->
       snd (SqliteUtils.migrate self db) =
         Py.Raise (Py.new Py.SchemaVersionError
                     ("invalid version: "
                      +:+ Py.str_int (Sqlite.user_version (Sqlite.content db))))) /\
  ~ (forall (self : SqliteUtils.HeavyMigration) (db : Sqlite.Connection),
       Sqlite.in_transaction db = false ->
       SqliteUtils.id_check_passes self db ->
       SqliteUtils.version self < Sqlite.user_version (Sqlite.content db) ->
       snd (SqliteUtils.migrate self db) =
         Py.Raise (Py.new Py.SchemaVersionError
                     ("invalid version: "
                      +:+ Py.str_int (Sqlite.user_version (Sqlite.content db))))).
Proof.
  split; [| split]; intros H.
  - specialize (H (Samples.migration_with Samples.create_feeds)
                  (Samples.connection_on (Samples.database_at 5 2))
                  eq_refl eq_refl eq_refl).
    vm_compute in H. discriminate H.
  - specialize (H (Samples.migration_with Samples.create_feeds)
                  (SqliteUtils.in_block
                     (Samples.connection_on (Samples.database_at 5 Samples.app_id)))
                  (or_intror (or_intror eq_refl)) eq_refl eq_refl).
    vm_compute in H. discriminate H.
  - specialize (H {| SqliteUtils.create := Samples.create_feeds;
                     SqliteUtils.version := -1;
                     SqliteUtils.migrations := ∅;
                     SqliteUtils.id := 0 |}
                  Samples.fresh_connection eq_refl (or_introl eq_refl) eq_refl).
    vm_compute in H. discriminate H.
Qed.

Section Unversioned.
Import Py Sqlite SqliteUtils.

Lemma create_then_stamp (self : HeavyMigration) (c db2 : Connection) :
  create self c = (db2, Return tt) ->
  0 <= version self <= INT32_MAX -> 0 <= id self <= INT32_MAX ->
  (create self ;; set_version (version self) ;; set_id (id self) ;; ret tt) c =
    (with_content (put_pragma PRAGMA_application_id (id self))
       (with_content (put_pragma PRAGMA_user_version (version self)) db2),
     Return tt).
Proof.
  intros Hcreate Hv Hi. unfold bind at 1. rewrite Hcreate.
  unfold bind, set_version, set_id, ret.
  rewrite (set_int_pragma_in_range _ _ _ Hv).
  rewrite (set_int_pragma_in_range _ _ _ Hi). reflexivity.
Qed.

(** C3 (as amended). On a connection outside a transaction, for a database
    whose stored version is 0 and whose stored id passes the id check: if
    [sqlite_master] has rows, [migrate] raises [DBError("database with no
    version already has tables")] and leaves the connection as it was;
    otherwise the block is [create(db)], then setting [user_version] to the
    configured version, then [application_id] to the configured id, then
    the return, with no step of [migrations] (the map does not occur); and
    when [create] returns with the transaction open and the configured
    version and id are not negative and fit in 32 signed bits (at most
    2147483647, beyond which SQLite stores 0), [migrate] returns with
    what [create] left committed, [user_version] being the configured
    version and [application_id] the configured id. *)
Theorem migrate_unversioned (self : HeavyMigration) (db : Connection) :
  in_transaction db = false ->
  id_check_passes self db ->
  user_version (content db) = 0 ->
  (sqlite_master (content db) <> [] ->
   migrate self db =
     (db, Raise (new DBError "database with no version already has tables"))) /\
  (sqlite_master (content db) = [] ->
   migrate_body self (in_block db) =
     (create self ;; set_version (version self) ;; set_id (id self) ;; ret tt)
       (in_block db) /\
   forall db2 s,
     create self (in_block db) = (db2, Return tt) ->
     txn db2 = Some s ->
     0 <= version self <= INT32_MAX -> 0 <= id self <= INT32_MAX ->
     migrate self db =
       (committed db
          {| user_version := version self; application_id := id self;
             sqlite_master := sqlite_master (content db2);
             foreign_key_check_rows := foreign_key_check_rows (content db2) |},
        Return tt)).
Proof.
  intros Hout Hgate Hzero. apply in_transaction_false in Hout.
  pose proof (migrate_body_passes self db Hgate (in_block db) eq_refl) as Hbody.
  split.
  - intros Htables. unfold migrate.
    erewrite (block_raises _ db Hout (in_block db) _ (content db)).
    + rewrite committed_same by exact Hout. reflexivity.
    + rewrite Hbody. by apply (migrate_from_tables self db (in_block db)).
    + reflexivity.
    + reflexivity.
  - intros Htables.
    assert (Hblock : migrate_body self (in_block db) =
              (create self ;; set_version (version self) ;; set_id (id self) ;; ret tt)
                (in_block db)).
    { rewrite Hbody. by apply (migrate_from_create self db (in_block db)). }
    split; [exact Hblock |].
    intros db2 s Hcreate Hopen Hv Hi. unfold migrate.
    rewrite (create_then_stamp self _ _ Hcreate Hv Hi) in Hblock.
    erewrite (block_returns _ db Hout _ tt s Hblock); [reflexivity |].
    exact Hopen.
Qed.

End Unversioned.

Lemma migrate_unversioned_witness :
  SqliteUtils.migrate (Samples.migration_with Samples.create_feeds)
    Samples.fresh_connection
  = (Samples.connection_on (Samples.database_at 3 Samples.app_id), Py.Return tt) /\
  SqliteUtils.migrate (Samples.migration_with Samples.create_feeds)
    (Samples.connection_on (Samples.database_at 0 0))
  = (Samples.connection_on (Samples.database_at 0 0),
     Py.Raise (Py.new Py.DBError "database with no version already has tables")).
Proof.
  split.
  - destruct (migrate_unversioned (Samples.migration_with Samples.create_feeds)
                Samples.fresh_connection eq_refl (or_intror (or_introl eq_refl))
                eq_refl) as [_ Hcreate].
    destruct (Hcreate eq_refl) as [_ Hdone].
    apply (Hdone _ _ eq_refl eq_refl); split; discriminate.
  - destruct (migrate_unversioned (Samples.migration_with Samples.create_feeds)
                (Samples.connection_on (Samples.database_at 0 0))
                eq_refl (or_intror (or_introl eq_refl)) eq_refl) as [Htables _].
    apply Htables. discriminate.
Defined.

(** C3, as stated, fails on a database stamped with another application's
    id, with or without tables ([IdError] comes first), and on a
    connection inside a transaction. It fails as well for a configured id
    that does not fit in 32 signed bits: [migrate] returns and the
    [application_id] stored is 0. *)
Lemma migrate_unversioned_counterexample :
  ~ (forall (self : SqliteUtils.HeavyMigration) (db : Sqlite.Connection),
       Sqlite.in_transaction db = false ->
       Sqlite.user_version (Sqlite.content db) = 0 ->
       Sqlite.sqlite_master (Sqlite.content db) <> [] ->
       snd (SqliteUtils.migrate self db) =
         Py.Raise (Py.new Py.DBError "database with no version already has tables")) /\
  ~ (forall (self : SqliteUtils.HeavyMigration) (db : Sqlite.Connection),
       Sqlite.in_transaction db = false ->
       Sqlite.user_version (Sqlite.content db) = 0 ->
       Sqlite.sqlite_master (Sqlite.content db) = [] ->
       SqliteUtils.create self = Samples.create_feeds ->
       0 <= SqliteUtils.version self -> 0 <= SqliteUtils.id self ->
       snd (SqliteUtils.migrate self db) = Py.Return tt) /\
  ~ (forall (self : SqliteUtils.HeavyMigration) (db : Sqlite.Connection),
       SqliteUtils.id_check_passes self db ->
       Sqlite.user_version (Sqlite.content db) = 0 ->
       Sqlite.sqlite_master (Sqlite.content db) <> [] ->
       snd (SqliteUtils.migrate self db) =
         Py.Raise (Py.new Py.DBError "database with no version already has tables")) /\
  ~ (forall (self : SqliteUtils.HeavyMigration) (db : Sqlite.Connection),
       Sqlite.in_transaction db = false ->
       SqliteUtils.id_check_passes self db ->
       Sqlite.user_version (Sqlite.content db) = 0 ->
       Sqlite.sqlite_master (Sqlite.content db) = [] ->
       SqliteUtils.create self = Samples.create_feeds ->
       0 <= SqliteUtils.version self -> 0 <= SqliteUtils.id self ->
       SqliteUtils.migrate self db =
         (SqliteUtils.committed db
            {| Sqlite.user_version := SqliteUtils.version self;
               Sqlite.application_id := SqliteUtils.id self;
               Sqlite.sqlite_master := ["feeds"];
               Sqlite.foreign_key_check_rows := [] |},
          Py.Return tt)).
Proof.
  split; [| split; [| split]]; intros H.
  - specialize (H (Samples.migration_with Samples.create_feeds)
                  (Samples.connection_on (Samples.database_at 0 2))
                  eq_refl eq_refl ltac:(discriminate)).
    vm_compute in H. discriminate H.
  - specialize (H (Samples.migration_with Samples.create_feeds)
                  (Samples.connection_on
                     {| Sqlite.user_version := 0; Sqlite.application_id := 2;
                        Sqlite.sqlite_master := [];
                        Sqlite.foreign_key_check_rows := [] |})
                  eq_refl eq_refl eq_refl eq_refl
                  ltac:(discriminate) ltac:(discriminate)).
    vm_compute in H. discriminate H.
  - specialize (H (Samples.migration_with Samples.create_feeds)
                  (SqliteUtils.in_block (Samples.connection_on (Samples.database_at 0 0)))
                  (or_intror (or_introl eq_refl)) eq_refl ltac:(discriminate)).
    vm_compute in H. discriminate H.
  - specialize (H Samples.migration_with_wide_id Samples.fresh_connection
                  eq_refl (or_intror (or_introl eq_refl)) eq_refl eq_refl eq_refl
                  ltac:(discriminate) ltac:(discriminate)).
    vm_compute in H. discriminate H.
Qed.

(** ** [migrate]: the migration steps *)

Section Steps.
Import Py Sqlite SqliteUtils.
Variable self : HeavyMigration.
Variable version0 : Z.

Local Abbreviation steps from_version :=
  (for_each (range from_version (version self)) (migrate_step self version0)).

Lemma range_nil a b : b <= a -> range a b = [].
Proof. intros H. unfold range. apply seqZ_nil. lia. Qed.

Lemma range_cons a b : a < b -> range a b = a :: range (a + 1) b.
Proof.
  intros H. unfold range. rewrite seqZ_cons by lia.
  f_equal. f_equal; lia.
Qed.

Lemma migrate_step_absent from_version db :
  migrations self !! from_version = None ->
  migrate_step self version0 from_version db =
    (db, Raise (new SchemaVersionError
                  ("no migration from " +:+ str_int from_version +:+ " to "
                   +:+ str_int (from_version + 1)
                   +:+ "; expected migrations for all versions later than "
                   +:+ str_int version0))).
Proof. intros Hm. unfold migrate_step. rewrite Hm. reflexivity. Qed.

Lemma migrate_step_present from_version db (migration : M unit) :
  migrations self !! from_version = Some migration ->
  0 <= from_version + 1 <= INT32_MAX ->
  migrate_step self version0 from_version db =
    match migration (with_content
                       (put_pragma PRAGMA_user_version (from_version + 1)) db) with
    | (db', Raise e) => (db', Raise e)
    | (db', Return _) =>
        match foreign_key_check_rows (content db') with
        | [] => (db', Return tt)
        | _ :: _ =>
            (db', Raise (new IntegrityError
                           ("after migrating to version "
                            +:+ str_int (from_version + 1) +:+ ": "
                            +:+ "integrity error: FOREIGN KEY constraint failed")))
        end
    end.
Proof.
  intros Hm Hto. unfold migrate_step. rewrite Hm.
  unfold bind at 1, set_version.
  rewrite (set_int_pragma_in_range _ _ _ Hto).
  unfold bind.
  destruct (migration _) as [db' [[] | e]]; [| reflexivity].
  unfold try_except, foreign_key_check.
  destruct (foreign_key_check_rows (content db')); reflexivity.
Qed.

(** The loop does what the relation says. *)
Lemma migrating_steps from_version db db2 r :
  version self <= INT32_MAX ->
  migrating self version0 from_version db db2 r ->
  0 <= from_version + 1 ->
  steps from_version db = (db2, r).
Proof.
  intros Hmax.
  induction 1 as [from_version db Hdone
                 | from_version db Hmore Hm
                 | from_version db m db' e Hmore Hm Hrun
                 | from_version db m db' row rows Hmore Hm Hrun Hrows
                 | from_version db m db' db'' r Hmore Hm Hrun Hrows _ IH];
    intros Hfrom.
  - rewrite range_nil by lia. reflexivity.
  - rewrite range_cons by lia. cbn [for_each]. unfold bind.
    rewrite migrate_step_absent by exact Hm. reflexivity.
  - rewrite range_cons by lia. cbn [for_each]. unfold bind.
    rewrite (migrate_step_present _ _ _ Hm) by lia. rewrite Hrun. reflexivity.
  - rewrite range_cons by lia. cbn [for_each]. unfold bind.
    rewrite (migrate_step_present _ _ _ Hm) by lia. rewrite Hrun, Hrows.
    reflexivity.
  - rewrite range_cons by lia. cbn [for_each]. unfold bind.
    rewrite (migrate_step_present _ _ _ Hm) by lia. rewrite Hrun, Hrows.
    apply IH. lia.
Qed.

(** The relation describes every run of the loop. *)
Lemma steps_migrating (n : nat) : forall from_version db,
  version self <= INT32_MAX ->
  0 <= from_version + 1 ->
  version self - from_version <= Z.of_nat n ->
  migrating self version0 from_version db
    (fst (steps from_version db)) (snd (steps from_version db)).
Proof.
  induction n as [| n IH]; intros from_version db Hmax Hfrom Hleft.
  - rewrite range_nil by lia. apply migrating_done. lia.
  - destruct (Z_lt_le_dec from_version (version self)) as [Hmore | Hdone];
      [| rewrite range_nil by lia; apply migrating_done; lia].
    rewrite range_cons by lia. cbn [for_each]. unfold bind.
    destruct (migrations self !! from_version) as [m |] eqn:Hm.
    + rewrite (migrate_step_present _ _ _ Hm) by lia.
      destruct (m _) as [db' [[] | e]] eqn:Hrun.
      * destruct (foreign_key_check_rows (content db')) as [| row rows] eqn:Hrows.
        -- eapply migrating_next; try eassumption. apply IH; lia.
        -- eapply migrating_violation; eassumption.
      * eapply migrating_raises; eassumption.
    + rewrite migrate_step_absent by exact Hm. by apply migrating_absent.
Qed.

Lemma check_id_after_passes db :
  id self = 0 \/ application_id (content db) = id self ->
  check_id_after self db = (db, Return tt).
Proof.
  intros Hid. unfold check_id_after. case_bool_decide as H0; [reflexivity |].
  destruct Hid as [? | Hid]; [contradiction |].
  unfold bind, get_id, get_int_pragma. cbn [read_pragma].
  rewrite bool_decide_eq_false_2 by auto. reflexivity.
Qed.

Lemma migrate_from_older stored db :
  user_version (content db) = version0 ->
  0 < version0 < version self ->
  migrate_from self stored db = (steps version0 ;; check_id_after self) db.
Proof.
  intros Hv Hrange. unfold migrate_from, bind at 1, get_version, get_int_pragma.
  cbn [read_pragma]. rewrite Hv.
  rewrite bool_decide_eq_false_2 by lia.
  rewrite bool_decide_eq_false_2 by lia.
  destruct (Z.ltb_spec (version self) version0); [lia | reflexivity].
Qed.

End Steps.

Section MigrateSteps.
Import Py Sqlite SqliteUtils.

(** C1 (as amended). On a connection outside a transaction, for a database
    whose stored id passes the id check and whose stored version [v]
    satisfies [0 < v < target], with a target that fits in 32 signed bits
    (at most 2147483647), the block of [migrate] goes through the
    steps [v -> v+1], ... up to the target as [migrating] words them: a
    step whose migration is absent raises [SchemaVersionError]; otherwise
    the step sets [user_version] to [v+1], then runs the migration, then
    checks the foreign keys, raising [IntegrityError("after migrating to
    version {v+1}: ...")] on a violation. The steps always end in one of
    these ways. An exception ending them is what the block raises, and,
    when it is an instance of [Exception] and the transaction is still the
    one [migrate] opened, what [migrate] raises, the connection being given
    back as it was; steps that all succeed are followed by the check of the
    id, and when it passes with the transaction open, [migrate] returns
    with their result committed. *)
Theorem migrate_steps (self : HeavyMigration) (db : Connection) :
  in_transaction db = false ->
  id_check_passes self db ->
  0 < user_version (content db) < version self ->
  version self <= INT32_MAX ->
  let v := user_version (content db) in
  (exists db2 r, migrating self v v (in_block db) db2 r) /\
  forall db2 r,
    migrating self v v (in_block db) db2 r ->
    match r with
    | Raise e =>
        migrate_body self (in_block db) = (db2, Raise e) /\
        (isinstance e Exception = true ->
         txn db2 = Some (content db) ->
         migrate self db = (db, Raise e))
    | Return _ =>
        migrate_body self (in_block db) = check_id_after self db2 /\
        (id self = 0 \/ application_id (content db2) = id self ->
         forall s, txn db2 = Some s ->
         migrate self db = (committed db (content db2), Return tt))
    end.
Proof.
  intros Hout Hgate Hrange Hmax v. apply in_transaction_false in Hout.
  assert (Hbody : migrate_body self (in_block db) =
            (for_each (range v (version self)) (migrate_step self v) ;;
             check_id_after self) (in_block db)).
  { rewrite (migrate_body_passes self db Hgate) by reflexivity.
    apply migrate_from_older; [reflexivity | exact Hrange]. }
  split.
  - eexists _, _.
    apply (steps_migrating self v (Z.to_nat (version self - v)));
      [exact Hmax | unfold v; lia | unfold v; lia].
  - intros db2 r Hsteps.
    apply migrating_steps in Hsteps; [| exact Hmax | unfold v; lia].
    unfold bind in Hbody. rewrite Hsteps in Hbody.
    destruct r as [[] | e].
    + split; [exact Hbody |].
      intros Hid s Hopen. unfold migrate.
      rewrite (check_id_after_passes self db2 Hid) in Hbody.
      by rewrite (block_returns _ db Hout _ tt s Hbody Hopen).
    + split; [exact Hbody |].
      intros Hexc Hopen. unfold migrate.
      rewrite (block_raises _ db Hout _ e (content db) Hbody Hexc Hopen).
      by rewrite committed_same.
Qed.

End MigrateSteps.

Lemma migrate_steps_witness :
  SqliteUtils.migrate Samples.migration_orphaning
    (Samples.connection_on (Samples.database_at 1 Samples.app_id))
  = (Samples.connection_on (Samples.database_at 1 Samples.app_id),
     Py.Raise (Py.new Py.IntegrityError
       "after migrating to version 2: integrity error: FOREIGN KEY constraint failed")) /\
  SqliteUtils.migrate Samples.migration_with_gap
    (Samples.connection_on (Samples.database_at 1 Samples.app_id))
  = (Samples.connection_on (Samples.database_at 1 Samples.app_id),
     Py.Raise (Py.new Py.SchemaVersionError
       "no migration from 2 to 3; expected migrations for all versions later than 1")).
Proof.
  split.
  - destruct (migrate_steps Samples.migration_orphaning
                (Samples.connection_on (Samples.database_at 1 Samples.app_id))
                eq_refl (or_intror (or_intror eq_refl)) ltac:(split; reflexivity)
                ltac:(discriminate))
      as [_ Hrun].
    eassert (Hsteps : SqliteUtils.migrating Samples.migration_orphaning 1 1
                        (SqliteUtils.in_block
                           (Samples.connection_on
                              (Samples.database_at 1 Samples.app_id)))
                        _ (Py.Raise _)).
    { eapply SqliteUtils.migrating_violation;
        [reflexivity | reflexivity | reflexivity | reflexivity]. }
    exact (proj2 (Hrun _ _ Hsteps) eq_refl eq_refl).
  - destruct (migrate_steps Samples.migration_with_gap
                (Samples.connection_on (Samples.database_at 1 Samples.app_id))
                eq_refl (or_intror (or_intror eq_refl)) ltac:(split; reflexivity)
                ltac:(discriminate))
      as [_ Hrun].
    eassert (Hsteps : SqliteUtils.migrating Samples.migration_with_gap 1 1
                        (SqliteUtils.in_block
                           (Samples.connection_on
                              (Samples.database_at 1 Samples.app_id)))
                        _ (Py.Raise _)).
    { eapply SqliteUtils.migrating_next;
        [reflexivity | reflexivity | reflexivity | reflexivity |].
      apply SqliteUtils.migrating_absent; reflexivity. }
    exact (proj2 (Hrun _ _ Hsteps) eq_refl eq_refl).
Defined.

(** C1, as stated, fails on a database stamped with another application's
    id: [IdError] is raised before any step is looked at. It fails as well
    on a connection inside a transaction, and for a target version that
    does not fit in 32 signed bits: the step to 2147483648 stores 0, and
    that is the version [migrate] commits. *)
Lemma migrate_steps_counterexample :
  ~ (forall (self : SqliteUtils.HeavyMigration) (db : Sqlite.Connection),
       Sqlite.in_transaction db = false ->
       0 < Sqlite.user_version (Sqlite.content db) < SqliteUtils.version self ->
       SqliteUtils.migrations self !! Sqlite.user_version (Sqlite.content db) = None ->
       exists msg,
         snd (SqliteUtils.migrate self db) =
           Py.Raise (Py.new Py.SchemaVersionError msg)) /\
  ~ (forall (self : SqliteUtils.HeavyMigration) (db : Sqlite.Connection),
       SqliteUtils.id_check_passes self db ->
       0 < Sqlite.user_version (Sqlite.content db) < SqliteUtils.version self ->
       SqliteUtils.migrations self !! Sqlite.user_version (Sqlite.content db) = None ->
       exists msg,
         snd (SqliteUtils.migrate self db) =
           Py.Raise (Py.new Py.SchemaVersionError msg)) /\
  ~ (forall (self : SqliteUtils.HeavyMigration) (db db' : Sqlite.Connection),
       Sqlite.in_transaction db = false ->
       SqliteUtils.id_check_passes self db ->
       0 < Sqlite.user_version (Sqlite.content db) < SqliteUtils.version self ->
       SqliteUtils.migrate self db = (db', Py.Return tt) ->
       Sqlite.user_version (Sqlite.content db') = SqliteUtils.version self).
Proof.
  split; [| split]; intros H.
  - destruct (H Samples.migration_with_gap
                (Samples.connection_on (Samples.database_at 2 2))
                eq_refl ltac:(split; reflexivity) eq_refl) as [msg Hmsg].
    vm_compute in Hmsg. discriminate Hmsg.
  - destruct (H Samples.migration_with_gap
                (SqliteUtils.in_block
                   (Samples.connection_on (Samples.database_at 2 Samples.app_id)))
                (or_intror (or_intror eq_refl)) ltac:(split; reflexivity) eq_refl)
      as [msg Hmsg].
    vm_compute in Hmsg. discriminate Hmsg.
  - specialize (H Samples.migration_beyond_int32
                  (Samples.connection_on (Samples.database_at 2147483647 0)) _
                  eq_refl (or_introl eq_refl) ltac:(split; reflexivity) eq_refl).
    vm_compute in H. discriminate H.
Qed.

(** * Further properties *)

(** ** [zero_or_one] *)

(** X1. [zero_or_one] returns a value exactly when the iterable has that
    one element, or is empty and the value is the default; on an empty
    iterable without default it raises the supplied exception; the default
    is never used for a non-empty iterable, and two or more elements fail
    the assertion. *)
Theorem zero_or_one_cases {U : Type} (it : list U) (make_exc : unit -> Py.exn)
    (default : option U) :
  (forall v, UtilsMore.zero_or_one it make_exc default = Py.Return v <->
             it = [v] \/ (it = [] /\ default = Some v)) /\
  (it = [] -> default = None ->
   UtilsMore.zero_or_one it make_exc default = Py.Raise (make_exc tt)) /\
  ((2 <= length it)%nat ->
   UtilsMore.zero_or_one it make_exc default =
     Py.Raise (Py.new Py.AssertionError "shouldn't get here")).
Proof.
  split; [| split].
  - intros v. destruct it as [| x [| y it']]; cbn.
    + destruct default as [d |]; split.
      * intros [= ->]. right. auto.
      * intros [[=] | [_ [= ->]]]. reflexivity.
      * discriminate.
      * intros [[=] | [_ [=]]].
    + split; [intros [= ->]; by left | intros [[= ->] | [[=] _]]; reflexivity].
    + split; [discriminate | intros [[=] | [[=] _]]].
  - intros -> ->. reflexivity.
  - destruct it as [| x [| y it']]; cbn; intros Hlen; try lia. reflexivity.
Qed.

Lemma zero_or_one_cases_witness :
  UtilsMore.zero_or_one [1; 2] (fun _ => Py.new Py.LookupError "none") (Some 0)
  = Py.Raise (Py.new Py.AssertionError "shouldn't get here").
Proof.
  destruct (zero_or_one_cases [1; 2] (fun _ => Py.new Py.LookupError "none") (Some 0))
    as (_ & _ & Hmany).
  apply Hmany. cbn. lia.
Defined.

(** ** [chunks] *)

(** X2. Chunking commutes with appending at a chunk boundary: when the
    length of [xs] is a multiple of [n], the chunks of [xs ++ ys] are the
    chunks of [xs] followed by the chunks of [ys]. *)
Theorem chunks_app {T : Type} (n k : nat) (xs ys : list T) :
  (1 <= n)%nat ->
  length xs = (k * n)%nat ->
  Utils.chunks n (xs ++ ys) = Utils.chunks n xs ++ Utils.chunks n ys.
Proof.
  intros Hn. destruct n as [| m]; [lia |]. clear Hn.
  revert xs. induction k as [| k IH]; intros xs Hlen.
  - destruct xs; [| discriminate]. simp chunks. reflexivity.
  - destruct xs as [| first rest]; [discriminate |].
    cbn [length] in Hlen. cbn [app]. simp chunks. cbn [app].
    assert (Hm : (m <= length rest)%nat) by lia.
    rewrite take_app_le by exact Hm.
    rewrite drop_app_le by exact Hm.
    rewrite IH; [reflexivity |]. rewrite length_drop. lia.
Qed.

Lemma chunks_app_witness :
  Utils.chunks 2 ([1; 2; 3; 4] ++ [5]) = [[1; 2]; [3; 4]; [5]].
Proof.
  rewrite (chunks_app 2 2 [1; 2; 3; 4] [5]); [reflexivity | lia | reflexivity].
Defined.

(** X3. For [n >= 1], [chunks n xs] has as many chunks as [n] goes into the
    length of [xs], rounded up; an empty iterable gives no chunk. *)
Theorem chunks_count {T : Type} (n : nat) (xs : list T) :
  (1 <= n)%nat ->
  length (Utils.chunks n xs) = ((length xs + n - 1) / n)%nat.
Proof.
  intros Hn. funelim (Utils.chunks n xs); simp chunks; try lia.
  - cbn [length]. symmetry. apply Nat.div_small. lia.
  - cbn [length]. rewrite H by lia. rewrite length_drop.
    destruct (decide (m <= length rest)%nat) as [Hle | Hgt].
    + replace (S (length rest) + S m - 1)%nat
        with ((length rest - m + S m - 1) + 1 * S m)%nat by lia.
      rewrite Nat.div_add by lia. lia.
    + replace (length rest - m)%nat with 0%nat by lia.
      rewrite (Nat.div_small (0 + S m - 1)) by lia.
      apply (Nat.div_unique _ _ 1 (length rest)); lia.
Qed.

Lemma chunks_count_witness :
  length (Utils.chunks 2 [1; 2; 3; 4; 5]) = 3%nat.
Proof. rewrite (chunks_count 2 [1; 2; 3; 4; 5]) by lia. reflexivity. Defined.

(** ** [join_paginated_iter] over a list *)

Section ListPages.
Import Utils PageSource.
Context {U : Type}.
Implicit Types (rows : list U) (position : nat).

Lemma numbered_fst position rows : map fst (numbered position rows) = rows.
Proof.
  revert position. induction rows as [| r rows IH]; intros position; cbn;
    [reflexivity | by rewrite IH].
Qed.

Lemma numbered_length position rows :
  length (numbered position rows) = length rows.
Proof.
  revert position. induction rows as [| r rows IH]; intros position; cbn;
    [reflexivity | by rewrite IH].
Qed.

Lemma numbered_last position rows d :
  rows <> [] ->
  snd (List.last (numbered position rows) d) = (position + length rows)%nat.
Proof.
  revert position d. induction rows as [| r rows IH]; intros position d Hne;
    [contradiction |].
  destruct rows as [| r' rows'].
  - cbn. lia.
  - change (numbered position (r :: r' :: rows'))
      with ((r, S position) :: numbered (S position) (r' :: rows')).
    change (List.last ((r, S position) :: numbered (S position) (r' :: rows')) d)
      with (List.last (numbered (S position) (r' :: rows')) d).
    rewrite IH by discriminate. cbn [length]. lia.
Qed.

Variable rows : list U.
Variable chunk_size : Z.
Hypothesis chunked : 0 < chunk_size.

Local Abbreviation start last := (match last with Some i => i | None => O end).
Local Abbreviation k := (Z.to_nat chunk_size).

Lemma list_pages_page (last : option nat) :
  list_pages rows chunk_size last tt =
    (tt, numbered (start last) (take k (drop (start last) rows))).
Proof.
  unfold list_pages. destruct (Z.eqb_spec chunk_size 0) as [? | _]; [lia |].
  reflexivity.
Qed.

Lemma list_pages_loop (fuel : nat) : forall last : option nat,
  ((length rows - start last) / k < fuel)%nat ->
  items (join_paginated_loop fuel (list_pages rows) chunk_size last tt)
    = drop (start last) rows /\
  stopped (join_paginated_loop fuel (list_pages rows) chunk_size last tt) = true /\
  length (calls (join_paginated_loop fuel (list_pages rows) chunk_size last tt))
    = S ((length rows - start last) / k).
Proof.
  induction fuel as [| fuel IH]; intros last Hfuel; [lia |].
  cbn [join_paginated_loop]. rewrite list_pages_page.
  destruct (Z.eqb_spec chunk_size 0) as [? | _]; [lia |].
  set (p := start last) in *.
  assert (Hlen : length (take k (drop p rows)) = Nat.min k (length rows - p))
    by (rewrite length_take, length_drop; reflexivity).
  destruct (take k (drop p rows)) as [| r page'] eqn:Hpage.
  - cbn. cbn in Hlen.
    assert (Hend : (length rows - p = 0)%nat) by lia.
    rewrite Hend, Nat.Div0.div_0_l.
    split; [| split; reflexivity].
    symmetry. apply nil_length_inv. rewrite length_drop. exact Hend.
  - rewrite <- Hpage in *.
    change (numbered p (take k (drop p rows)))
      with (numbered p (take k (drop p rows))).
    assert (Hne : take k (drop p rows) <> []) by (rewrite Hpage; discriminate).
    destruct (numbered p (take k (drop p rows))) as [| t0 rest] eqn:Hnum.
    { apply (f_equal length) in Hnum. rewrite numbered_length, Hpage in Hnum.
      discriminate. }
    rewrite <- Hnum.
    rewrite numbered_last by exact Hne. rewrite numbered_length, numbered_fst.
    destruct (Z.ltb_spec (Z.of_nat (length (take k (drop p rows)))) chunk_size)
      as [Hshort | Hfull].
    + cbn. rewrite app_nil_r.
      assert (Hrest : (length rows - p < k)%nat) by lia.
      rewrite Nat.div_small by exact Hrest.
      split; [| split; reflexivity].
      apply take_ge. rewrite length_drop. lia.
    + assert (Hk : length (take k (drop p rows)) = k) by lia.
      rewrite Hk.
      assert (Hdiv : ((length rows - p) / k = S ((length rows - (p + k)) / k))%nat).
      { replace (length rows - p)%nat with ((length rows - (p + k)) + 1 * k)%nat by lia.
        rewrite Nat.div_add by lia. lia. }
      destruct (IH (Some (p + k)%nat)) as (Hitems & Hstop & Hcalls); [cbn; lia |].
      cbn [emit items stopped calls length]. rewrite Hitems, Hstop, Hcalls.
      split; [| split; [reflexivity | lia]].
      cbn. rewrite <- drop_drop. apply take_drop.
Qed.

End ListPages.

(** X4. Over a page function that serves a list by position, with
    [chunk_size > 0] and enough turns, the generator stops having yielded
    exactly the rows of the list, in order, each once, after
    [len(rows) // chunk_size + 1] calls: when the length is a multiple of
    [chunk_size], one more call is made, which gets an empty page. *)
Theorem join_paginated_iter_list {U : Type} (rows : list U) (chunk_size : Z)
    (fuel : nat) :
  0 < chunk_size ->
  (length rows / Z.to_nat chunk_size < fuel)%nat ->
  Utils.items (Utils.join_paginated_iter fuel (PageSource.list_pages rows) chunk_size tt)
    = rows /\
  Utils.stopped (Utils.join_paginated_iter fuel (PageSource.list_pages rows) chunk_size tt)
    = true /\
  length (Utils.calls
            (Utils.join_paginated_iter fuel (PageSource.list_pages rows) chunk_size tt))
    = S (length rows / Z.to_nat chunk_size).
Proof.
  intros Hchunked Hfuel. unfold Utils.join_paginated_iter.
  destruct (list_pages_loop rows chunk_size Hchunked fuel None) as (Hi & Hs & Hc).
  - cbn. rewrite Nat.sub_0_r. exact Hfuel.
  - cbn in Hi, Hc. rewrite Nat.sub_0_r in Hc. auto.
Qed.

Lemma join_paginated_iter_list_witness :
  Utils.items (Utils.join_paginated_iter 3 (PageSource.list_pages [10; 20; 30; 40]) 2 tt)
    = [10; 20; 30; 40] /\
  length (Utils.calls
            (Utils.join_paginated_iter 3 (PageSource.list_pages [10; 20; 30; 40]) 2 tt))
    = 3%nat.
Proof.
  destruct (join_paginated_iter_list [10; 20; 30; 40] 2 3) as (Hi & _ & Hc).
  - lia.
  - vm_compute. lia.
  - split; [exact Hi | exact Hc].
Defined.

(** X5. With a negative [chunk_size] only an empty page ends the
    iteration: over a page function that never returns an empty page, the
    generator has not stopped after any number of turns. *)
Theorem join_paginated_iter_negative {W C U : Type}
    (get_things : Utils.page_fn W C U) (chunk_size : Z) :
  chunk_size < 0 ->
  (forall last w, snd (get_things chunk_size last w) <> []) ->
  forall fuel last w,
    Utils.stopped (Utils.join_paginated_loop fuel get_things chunk_size last w) = false /\
    length (Utils.calls (Utils.join_paginated_loop fuel get_things chunk_size last w))
      = fuel.
Proof.
  intros Hneg Hpages. induction fuel as [| fuel IH]; intros last w; [split; reflexivity |].
  cbn [Utils.join_paginated_loop].
  specialize (Hpages last w).
  destruct (get_things chunk_size last w) as [w1 things]. cbn [snd] in Hpages.
  destruct (Z.eqb_spec chunk_size 0) as [? | _]; [lia |].
  destruct things as [| t0 rest]; [contradiction |].
  destruct (Z.ltb_spec (Z.of_nat (length (t0 :: rest))) chunk_size) as [? | _]; [lia |].
  cbn [Utils.emit Utils.stopped Utils.calls length].
  destruct (IH (Some (snd (List.last (t0 :: rest) t0))) w1) as [-> ->]. auto.
Qed.

Lemma join_paginated_iter_negative_witness :
  Utils.stopped (Utils.join_paginated_iter 7 PageSource.endless (-1) tt) = false.
Proof.
  apply (join_paginated_iter_negative PageSource.endless (-1)).
  - lia.
  - intros last w. discriminate.
Defined.

(** ** [wrap_map] *)

Section WrapMapFacts.
Import UtilsMore.
Context {T R : Type}.
Variable func : T -> R.

(** The queue holds items not yet mapped, then sentinels; sentinels are
    only put once the iterable is exhausted. *)
Lemma replicate_snoc (m : nat) (x : option T) :
  replicate m x ++ [x] = replicate (S m) x.
Proof. induction m as [| m IH]; cbn; [reflexivity | by rewrite IH]. Qed.

Lemma wrap_map_loop_queue (n : nat) : forall (q : list T) (m : nat) (source : list T),
  length (q ++ source) = n ->
  ((0 < m)%nat -> source = []) ->
  q <> [] \/ (0 < m)%nat ->
  wrap_map_loop func (List.map Some q ++ replicate m None) source
    = (List.map func (q ++ source), Exhausted).
Proof.
  induction n as [| n IH]; intros q m source Hn Hsent Hsome.
  - destruct q; [| discriminate]. destruct source; [| discriminate].
    destruct Hsome as [? | Hm]; [contradiction |].
    destruct m; [lia |]. cbn. simp wrap_map_loop. reflexivity.
  - destruct q as [| x q'].
    + destruct Hsome as [? | Hm]; [contradiction |].
      rewrite (Hsent Hm) in Hn. discriminate.
    + cbn [List.map app]. simp wrap_map_loop. cbn zeta.
      destruct source as [| y s]; cbn [next_or_sentinel fst snd].
      * rewrite <- app_assoc, replicate_snoc.
        rewrite (IH q' (S m) []); [reflexivity | | auto | right; lia].
        rewrite !length_app in *. cbn in *. lia.
      * destruct m as [| m]; [| specialize (Hsent ltac:(lia)); discriminate].
        cbn [replicate]. rewrite app_nil_r.
        change [Some y] with (List.map Some [y]). rewrite <- List.map_app.
        assert (Hrest : wrap_map_loop func (List.map Some (q' ++ [y])) s
                        = (List.map func ((q' ++ [y]) ++ s), Exhausted)).
        { rewrite <- (app_nil_r (List.map Some (q' ++ [y]))).
          apply (IH (q' ++ [y]) 0%nat s).
          - rewrite !length_app in *. cbn in *. lia.
          - lia.
          - left. destruct q'; discriminate. }
        rewrite Hrest, <- app_assoc. reflexivity.
Qed.

Lemma prefill_queue (workers : nat) : forall (q : list T) (m : nat) (source : list T),
  ((0 < m)%nat -> source = []) ->
  exists q' m' source',
    prefill workers (List.map Some q ++ replicate m None) source
      = (List.map Some q' ++ replicate m' None, source') /\
    ((0 < m')%nat -> source' = []) /\
    q' ++ source' = q ++ source /\
    (length q' + m' = length q + m + workers)%nat.
Proof.
  induction workers as [| w IH]; intros q m source Hsent.
  - exists q, m, source. cbn. repeat split; auto; lia.
  - cbn [prefill]. destruct source as [| y s]; cbn [next_or_sentinel].
    + rewrite <- app_assoc, replicate_snoc.
      destruct (IH q (S m) []) as (q' & m' & s' & -> & H1 & H2 & H3); [auto |].
      exists q', m', s'. repeat split; auto; lia.
    + destruct m as [| m]; [| specialize (Hsent ltac:(lia)); discriminate].
      cbn [replicate]. rewrite app_nil_r.
      change [Some y] with (List.map Some [y]). rewrite <- List.map_app.
      rewrite <- (app_nil_r (List.map Some (q ++ [y]))).
      change (@nil (option T)) with (replicate 0 (@None T)) at 1.
      destruct (IH (q ++ [y]) 0%nat s) as (q' & m' & s' & -> & H1 & H2 & H3); [lia |].
      exists q', m', s'. rewrite length_app in H3. cbn in H3.
      repeat split; auto; [rewrite H2, <- app_assoc; reflexivity | lia].
Qed.

End WrapMapFacts.

(** X6. With the builtin [map] and at least one worker, the generator of
    [wrap_map] yields [func] of every item of the iterable, in order, each
    once, and then ends; with no worker (zero or negative) it yields
    nothing and waits on the empty queue. *)
Theorem wrap_map_maps {T R : Type} (workers : Z) (func : T -> R) (iterable : list T) :
  (1 <= workers ->
   UtilsMore.wrap_map workers func iterable
     = (List.map func iterable, UtilsMore.Exhausted)) /\
  (workers <= 0 ->
   UtilsMore.wrap_map workers func iterable = ([], UtilsMore.Blocked)).
Proof.
  split; intros Hw; unfold UtilsMore.wrap_map.
  - destruct (prefill_queue (T := T) (Z.to_nat workers) [] 0%nat iterable)
      as (q & m & source & Heq & Hsent & Hsame & Hlen); [lia |].
    cbn in Heq. rewrite Heq.
    rewrite (wrap_map_loop_queue func _ q m source eq_refl Hsent).
    + rewrite Hsame. reflexivity.
    + destruct q; [right; cbn [length] in Hlen; lia | left; discriminate].
  - replace (Z.to_nat workers) with 0%nat by lia. cbn.
    simp wrap_map_loop. reflexivity.
Qed.

Lemma wrap_map_maps_witness :
  UtilsMore.wrap_map 2 Z.succ [1; 2; 3] = ([2; 3; 4], UtilsMore.Exhausted) /\
  UtilsMore.wrap_map 0 Z.succ [1; 2; 3] = ([], UtilsMore.Blocked).
Proof.
  destruct (wrap_map_maps 2 Z.succ [1; 2; 3]) as [Hrun _].
  destruct (wrap_map_maps 0 Z.succ [1; 2; 3]) as [_ Hblock].
  split; [exact (Hrun ltac:(lia)) | exact (Hblock ltac:(lia))].
Defined.

(** ** [require_version] *)

Section RequireVersion.
Import Py Setup Notions.

Lemma tuple_gt_lt (a b : list Z) : tuple_gt a b = true <-> tuple_lt b a.
Proof.
  revert b. induction a as [| x a IH]; intros b.
  - cbn. split; [discriminate | inversion 1].
  - destruct b as [| y b]; cbn.
    + split; [constructor | reflexivity].
    + destruct (Z.eqb_spec x y) as [-> | Hne].
      * rewrite IH. split; [by constructor |].
        inversion 1; subst; [lia | assumption].
      * rewrite Z.ltb_lt. split; [by constructor |].
        inversion 1; subst; [assumption | contradiction].
Qed.

(** [<=] on tuples is transitive. *)
Lemma tuple_le_trans (a : list Z) : forall b c,
  tuple_gt a b = false -> tuple_gt b c = false -> tuple_gt a c = false.
Proof.
  induction a as [| x a IH]; intros b c Hab Hbc; [reflexivity |].
  destruct b as [| y b]; [discriminate |].
  destruct c as [| z c]; [discriminate |].
  cbn in *.
  destruct (Z.eqb_spec x y) as [Hxy | Hxy], (Z.eqb_spec y z) as [Hyz | Hyz],
           (Z.eqb_spec x z) as [Hxz | Hxz];
    rewrite ?Z.ltb_ge in *; try lia.
  by apply (IH b c).
Qed.

Lemma tuple_gt_prefix (a b : list Z) : tuple_gt a (a ++ b) = false.
Proof.
  induction a as [| x a IH]; cbn; [reflexivity |].
  rewrite Z.eqb_refl. exact IH.
Qed.

Lemma require_version_accepts engine version_info :
  require_version engine version_info = Return tt <->
  tuple_gt version_info (sqlite_version engine) = false.
Proof.
  unfold require_version. destruct (tuple_gt _ _); split; congruence.
Qed.

End RequireVersion.

(** X7. [require_version] returns exactly when the version of the engine
    is not below the required one in the order of tuples, and raises
    [RequirementError] otherwise; a required version that is a prefix of
    the engine's (as [(3, 15)] of [(3, 15, 2)]) is accepted. *)
Theorem require_version_order (engine : Setup.Engine) (version_info : list Z) :
  (Setup.require_version engine version_info = Py.Return tt <->
   ~ Notions.tuple_lt (Setup.sqlite_version engine) version_info) /\
  (Notions.tuple_lt (Setup.sqlite_version engine) version_info ->
   exists msg, Setup.require_version engine version_info
               = Py.Raise (Py.new Py.RequirementError msg)) /\
  (forall rest, Setup.sqlite_version engine = version_info ++ rest ->
   Setup.require_version engine version_info = Py.Return tt).
Proof.
  split; [| split].
  - rewrite require_version_accepts, <- tuple_gt_lt.
    destruct (Setup.tuple_gt _ _); split; congruence.
  - intros Hlt. apply tuple_gt_lt in Hlt. unfold Setup.require_version.
    rewrite Hlt. eauto.
  - intros rest Hrest. apply require_version_accepts. rewrite Hrest.
    apply tuple_gt_prefix.
Qed.

Lemma require_version_order_witness :
  Setup.require_version Setup.complete_engine [3; 31] = Py.Return tt /\
  exists msg, Setup.require_version Setup.complete_engine [3; 32]
              = Py.Raise (Py.new Py.RequirementError msg).
Proof.
  destruct (require_version_order Setup.complete_engine [3; 31]) as (_ & _ & Hprefix).
  destruct (require_version_order Setup.complete_engine [3; 32]) as (_ & Hlow & _).
  split.
  - apply (Hprefix [1]). reflexivity.
  - apply Hlow. apply Notions.tuple_lt_tail, Notions.tuple_lt_head. lia.
Defined.

(** X8. A requirement that an engine meets is met by every engine whose
    version is not lower, and every requirement that is not higher is met
    by the same engine. *)
Theorem require_version_monotone (engine engine' : Setup.Engine)
    (version_info version_info' : list Z) :
  Setup.require_version engine version_info = Py.Return tt ->
  (~ Notions.tuple_lt (Setup.sqlite_version engine') (Setup.sqlite_version engine) ->
   Setup.require_version engine' version_info = Py.Return tt) /\
  (~ Notions.tuple_lt version_info version_info' ->
   Setup.require_version engine version_info' = Py.Return tt).
Proof.
  rewrite !require_version_accepts. intros Hmet. split; intros Hle.
  - apply tuple_le_trans with (b := Setup.sqlite_version engine); [exact Hmet |].
    rewrite <- tuple_gt_lt in Hle. by apply not_true_is_false.
  - apply tuple_le_trans with (b := version_info); [| exact Hmet].
    rewrite <- tuple_gt_lt in Hle. by apply not_true_is_false.
Qed.

Lemma require_version_monotone_witness :
  Setup.require_version Setup.complete_engine [3; 15] = Py.Return tt.
Proof.
  destruct (require_version_monotone Setup.complete_engine Setup.complete_engine
              [3; 31] [3; 15] eq_refl) as [_ Hlower].
  apply Hlower. inversion 1 as [| ? ? ? ? Hlt | ? ? ? Htail]; subst; [lia |].
  inversion Htail; subst; lia.
Defined.

(** ** [require_functions] *)

Section RequireFunctions.
Import Py Setup Notions.
Variable engine : Engine.

Lemma tests_nonempty name sql : FUNCTION_TESTS !! name = Some sql -> sql <> "".
Proof.
  unfold FUNCTION_TESTS. intros H.
  repeat (apply lookup_insert_Some in H as [[_ <-] | [_ H]]; [discriminate |]).
  apply lookup_singleton_Some in H as [_ <-]. discriminate.
Qed.

Lemma add_sorted_elem n name missing :
  n ∈ add_sorted name missing <-> n = name \/ n ∈ missing.
Proof.
  induction missing as [| m missing IH]; cbn.
  - rewrite list_elem_of_singleton, elem_of_nil. tauto.
  - destruct (String.eqb_spec name m) as [-> | Hne].
    + rewrite elem_of_cons. tauto.
    + destruct (String.ltb name m); rewrite !elem_of_cons; [tauto |].
      rewrite IH. tauto.
Qed.

Lemma not_both name : available engine name -> lacking engine name -> False.
Proof.
  intros (sql & Hsql & Hrun) (sql' & e & Hsql' & Hrun' & _).
  congruence.
Qed.

Lemma probe_available name names missing :
  available engine name ->
  probe_functions engine (name :: names) missing
    = probe_functions engine names missing.
Proof.
  intros (sql & Hsql & Hrun). cbn [probe_functions]. rewrite Hsql.
  pose proof (tests_nonempty _ _ Hsql). destruct sql; [contradiction |].
  rewrite Hrun. reflexivity.
Qed.

Lemma probe_lacking name names missing :
  lacking engine name ->
  probe_functions engine (name :: names) missing
    = probe_functions engine names (add_sorted name missing).
Proof.
  intros (sql & e & Hsql & Hrun & Hop & Htext). cbn [probe_functions]. rewrite Hsql.
  pose proof (tests_nonempty _ _ Hsql). destruct sql; [contradiction |].
  rewrite Hrun, Hop, Htext. reflexivity.
Qed.

Lemma probe_unknown name names missing :
  FUNCTION_TESTS !! name = None ->
  probe_functions engine (name :: names) missing
    = Raise (new ValueError ("no test for function: " +:+ name)).
Proof. intros Hnone. cbn [probe_functions]. rewrite Hnone. reflexivity. Qed.

(** What a completed probe tells. *)
Lemma probe_returns names : forall missing found,
  probe_functions engine names missing = Return found ->
  Forall (fun n => available engine n \/ (lacking engine n /\ n ∈ found)) names /\
  (forall n, n ∈ missing -> n ∈ found) /\
  (forall n, n ∈ found -> n ∈ missing \/ (n ∈ names /\ lacking engine n)).
Proof.
  induction names as [| name names IH]; intros missing found Hprobe.
  - injection Hprobe as <-. split; [constructor | split; auto].
  - cbn [probe_functions] in Hprobe.
    destruct (FUNCTION_TESTS !! name) as [sql |] eqn:Hsql; [| discriminate].
    pose proof (tests_nonempty _ _ Hsql) as Hne.
    destruct sql as [| a sql']; [contradiction |].
    destruct (execute_test engine (String a sql')) as [[] | e] eqn:Hrun.
    + destruct (IH _ _ Hprobe) as (Hall & Hsub & Hfrom).
      split; [constructor; [left; by exists (String a sql') | exact Hall] |].
      split; [exact Hsub |].
      intros n Hn. destruct (Hfrom n Hn) as [? | [Hin ?]]; [by left |].
      right. split; [by right | assumption].
    + destruct (isinstance e sqlite3_OperationalError) eqn:Hop; [| discriminate].
      destruct (contains "no such" (str e)) eqn:Htext; [| discriminate].
      assert (Hlack : lacking engine name)
        by (exists (String a sql'), e; auto).
      destruct (IH _ _ Hprobe) as (Hall & Hsub & Hfrom).
      split; [constructor; [| exact Hall] |].
      { right. split; [exact Hlack |]. apply Hsub, add_sorted_elem. by left. }
      split.
      { intros n Hn. apply Hsub, add_sorted_elem. by right. }
      intros n Hn. destruct (Hfrom n Hn) as [Hadd | [Hin ?]].
      * apply add_sorted_elem in Hadd as [-> | ?]; [| by left].
        right. split; [by left | exact Hlack].
      * right. split; [by right | assumption].
Qed.

(** A probe of names that are all tested, and available or lacking, completes. *)
Lemma probe_completes names : forall missing,
  Forall (fun n => available engine n \/ lacking engine n) names ->
  exists found, probe_functions engine names missing = Return found.
Proof.
  induction names as [| name names IH]; intros missing Hall; [by eexists |].
  apply Forall_cons in Hall as [[Hav | Hlack] Hall].
  - rewrite probe_available by exact Hav. by apply IH.
  - rewrite probe_lacking by exact Hlack. by apply IH.
Qed.

Lemma probe_reaches before : forall missing name after,
  Forall (fun n => available engine n \/ lacking engine n) before ->
  FUNCTION_TESTS !! name = None ->
  probe_functions engine (before ++ name :: after) missing
    = Raise (new ValueError ("no test for function: " +:+ name)).
Proof.
  induction before as [| b before IH]; intros missing name after Hall Hnone.
  - by apply probe_unknown.
  - apply Forall_cons in Hall as [[Hav | Hlack] Hall]; cbn [app].
    + rewrite probe_available by exact Hav. by apply IH.
    + rewrite probe_lacking by exact Hlack. by apply IH.
Qed.

End RequireFunctions.

(** X9. [require_functions] returns exactly when every name has a test
    and the engine runs each test without error. *)
Theorem require_functions_returns (engine : Setup.Engine) (names : list string) :
  Setup.require_functions engine names = Py.Return tt <->
  Forall (Notions.available engine) names.
Proof.
  unfold Setup.require_functions. split.
  - destruct (Setup.probe_functions engine names []) as [found | e] eqn:Hprobe;
      [| discriminate].
    destruct found as [| m found]; [| discriminate]. intros _.
    destruct (probe_returns engine names [] [] Hprobe) as (Hall & _ & _).
    eapply Forall_impl; [exact Hall |]. cbn.
    intros n [Hav | [_ Hin]]; [exact Hav | inversion Hin].
  - intros Hall.
    assert (Hprobe : Setup.probe_functions engine names [] = Py.Return []).
    { induction Hall as [| name names Hav _ IH]; [reflexivity |].
      rewrite probe_available by exact Hav. exact IH. }
    rewrite Hprobe. reflexivity.
Qed.

Lemma require_functions_returns_witness :
  Setup.require_functions Setup.complete_engine ["json"; "json_each"] = Py.Return tt.
Proof.
  apply (require_functions_returns Setup.complete_engine ["json"; "json_each"]).
  apply Forall_cons; split; [eexists; split; reflexivity |].
  apply Forall_cons; split; [eexists; split; reflexivity |].
  apply List.Forall_nil.
Defined.

(** X10. A name without a test makes [require_functions] raise
    [ValueError("no test for function: <name>")] as soon as the loop
    reaches it, whatever follows it and even when functions probed before
    it are missing: the missing ones are then not reported. *)
Theorem require_functions_unknown (engine : Setup.Engine)
    (before after : list string) (name : string) :
  Forall (fun n => Notions.available engine n \/ Notions.lacking engine n) before ->
  Setup.FUNCTION_TESTS !! name = None ->
  Setup.require_functions engine (before ++ name :: after)
    = Py.Raise (Py.new Py.ValueError ("no test for function: " +:+ name)).
Proof.
  intros Hbefore Hnone. unfold Setup.require_functions.
  rewrite (probe_reaches engine before [] name after Hbefore Hnone). reflexivity.
Qed.

Lemma require_functions_unknown_witness :
  Setup.require_functions Setup.engine_without_json ["json"; "regexp"; "json_each"]
    = Py.Raise (Py.new Py.ValueError "no test for function: regexp").
Proof.
  apply (require_functions_unknown Setup.engine_without_json ["json"] ["json_each"]
           "regexp").
  - apply Forall_cons; split; [| apply List.Forall_nil]. right. eexists _, _.
    split; [reflexivity |]. split; [reflexivity |]. split; reflexivity.
  - reflexivity.
Defined.

(** X11. When every name has a test that the engine runs or answers with
    a "no such" [OperationalError], and some function is lacking,
    [require_functions] raises [RequirementError] with the list of exactly
    the lacking names among those asked for. *)
Theorem require_functions_missing (engine : Setup.Engine) (names : list string) :
  Forall (fun n => Notions.available engine n \/ Notions.lacking engine n) names ->
  Exists (Notions.lacking engine) names ->
  exists missing,
    Setup.require_functions engine names =
      Py.Raise (Py.new Py.RequirementError
                  ("required SQLite functions missing: "
                   +:+ Setup.repr_names missing)) /\
    forall n, n ∈ missing <-> n ∈ names /\ Notions.lacking engine n.
Proof.
  intros Hall Hsome. unfold Setup.require_functions.
  destruct (probe_completes engine names [] Hall) as [found Hprobe].
  rewrite Hprobe.
  destruct (probe_returns engine names [] found Hprobe) as (Hnames & _ & Hfrom).
  assert (Hiff : forall n, n ∈ found <-> n ∈ names /\ Notions.lacking engine n).
  { intros n. split.
    - intros Hn. destruct (Hfrom n Hn) as [Hnil | ?]; [inversion Hnil | assumption].
    - intros [Hin Hlack]. rewrite Forall_forall in Hnames.
      destruct (Hnames n Hin) as [Hav | [_ ?]]; [| assumption].
      destruct (not_both engine n Hav Hlack). }
  destruct found as [| m found].
  - exfalso. apply Exists_exists in Hsome as (n & Hin & Hlack).
    pose proof (proj2 (Hiff n) (conj Hin Hlack)) as Hnil. inversion Hnil.
  - exists (m :: found). split; [reflexivity | exact Hiff].
Qed.

Lemma require_functions_missing_witness :
  exists missing,
    Setup.require_functions Setup.engine_without_json ["json_each"; "json"; "json"]
      = Py.Raise (Py.new Py.RequirementError
                    ("required SQLite functions missing: "
                     +:+ Setup.repr_names missing)) /\
    "json" ∈ missing /\ ~ "json_object" ∈ missing.
Proof.
  destruct (require_functions_missing Setup.engine_without_json
              ["json_each"; "json"; "json"]) as (missing & Heq & Hiff).
  - repeat (apply Forall_cons; split;
              [right; eexists _, _;
               (split; [reflexivity |]; split; [reflexivity |]; split; reflexivity) |]).
    apply List.Forall_nil.
  - apply Exists_cons_hd. eexists _, _.
    split; [reflexivity |]. split; [reflexivity |]. split; reflexivity.
  - exists missing. split; [exact Heq |]. split.
    + apply Hiff. split.
      * right. left.
      * eexists _, _.
        split; [reflexivity |]. split; [reflexivity |]. split; reflexivity.
    + intros Hin. apply Hiff in Hin as [Hin _].
      repeat (apply elem_of_cons in Hin as [Heq' | Hin]; [discriminate Heq' |]).
      inversion Hin.
Defined.

(** ** What a [migrate] that returns has done *)

Section MigrateReturns.
Import Py Sqlite SqliteUtils Notions.

Lemma ddl_transaction_returns {A} (body : M A) c c' x :
  ddl_transaction body c = (c', Return x) ->
  exists dbb s,
    body (fst (execute_BEGIN (fst (set_isolation_level None c)))) = (dbb, Return x) /\
    txn dbb = Some s /\
    c' = {| isolation_level := isolation_level c; foreign_keys := foreign_keys dbb;
            txn := None; content := content dbb |}.
Proof.
  unfold ddl_transaction, try_finally, try_except, bind.
  cbn [set_isolation_level execute_BEGIN txn fst].
  destruct (body _) as [dbb [x' | e]] eqn:Hbody.
  - unfold execute_COMMIT. destruct (txn dbb) as [s |] eqn:Hopen.
    + unfold ret, set_isolation_level.
      destruct (isolation_level c) eqn:Hiso; intros [= <- <-];
        exists dbb, s; rewrite <- ?Hiso; auto.
    + cbn [List.find fst].
      assert (Hexc : isinstance
                       (new sqlite3_OperationalError
                          "cannot commit - no transaction is active")
                       Exception = true) by reflexivity.
      rewrite Hexc. unfold execute_ROLLBACK, bind. rewrite Hopen.
      unfold set_isolation_level. destruct (isolation_level c); discriminate.
  - cbn [List.find fst]. unfold bind, raise, execute_ROLLBACK, set_isolation_level.
    destruct (isinstance e Exception); [destruct (txn dbb) |];
      destruct (isolation_level c); discriminate.
Qed.

Lemma migrate_returns self db db' :
  migrate self db = (db', Return tt) ->
  txn db = None /\
  exists dbb s,
    migrate_body self (in_block db) = (dbb, Return tt) /\
    txn dbb = Some s /\
    db' = committed db (content dbb).
Proof.
  unfold migrate. intros Hrun.
  destruct (in_transaction db) eqn:Hin.
  { rewrite foreign_keys_off_inside in Hrun by exact Hin. discriminate. }
  pose proof Hin as Hout. apply in_transaction_false in Hout.
  split; [exact Hout |].
  destruct (ddl_transaction (migrate_body self)
              (fst (set_pragma_foreign_keys false db))) as [c2 r] eqn:Hddl.
  rewrite (foreign_keys_off_outside _ _ _ _ Hin Hddl) in Hrun.
  injection Hrun as Hstate ->.
  apply ddl_transaction_returns in Hddl as (dbb & s & Hbody & Hopen & ->).
  rewrite (enter_block db Hout) in Hbody.
  exists dbb, s. split; [exact Hbody |]. split; [exact Hopen |].
  rewrite <- Hstate. unfold set_pragma_foreign_keys, committed. cbn.
  unfold set_pragma_foreign_keys. rewrite Hout. reflexivity.
Qed.

Lemma bind_returns {A B} (m : M A) (k : A -> M B) c c' b :
  bind m k c = (c', Return b) ->
  exists c1 a, m c = (c1, Return a) /\ k a c1 = (c', Return b).
Proof.
  unfold bind. destruct (m c) as [c1 [a | e]]; [eauto | discriminate].
Qed.

Lemma check_id_returns self c c1 stored :
  check_id self c = (c1, Return stored) ->
  c1 = c /\ stored = stored_id self c /\ id_check_passes self c.
Proof.
  unfold check_id, stored_id, id_check_passes. case_bool_decide as Hid.
  - intros [= <- <-]. auto.
  - unfold bind, get_id, get_int_pragma. cbn [read_pragma].
    destruct (bool_decide_reflect (application_id (content c) <> 0)) as [Hnz | Hz];
      cbn [andb].
    + case_bool_decide as Hne; [discriminate |]. intros [= <- <-].
      try apply dec_stable in Hne. auto.
    + intros [= <- <-]. try apply dec_stable in Hz. auto.
Qed.

(** A block that returns has left the configured id in the database. *)
Lemma migrate_body_returns_id self c c' :
  migrate_body self c = (c', Return tt) ->
  id self <> 0 ->
  id self <= INT32_MAX ->
  application_id (content c') = id self.
Proof.
  intros Hrun Hid Hmax. unfold migrate_body in Hrun.
  apply bind_returns in Hrun as (c1 & stored & Hcheck & Hrun).
  apply check_id_returns in Hcheck as (-> & -> & Hgate).
  unfold migrate_from in Hrun.
  apply bind_returns in Hrun as (c2 & v & [= <- <-] & Hrun).
  cbn [read_pragma] in Hrun.
  case_bool_decide as Hzero.
  { apply bind_returns in Hrun as (c2 & n & [= <- <-] & Hrun).
    case_bool_decide; [discriminate |].
    apply bind_returns in Hrun as (c2 & [] & _ & Hrun).
    apply bind_returns in Hrun as (c3 & [] & _ & Hrun).
    apply bind_returns in Hrun as (c4 & [] & Hset & [= <-]).
    unfold set_id, set_int_pragma in Hset.
    destruct (Z.ltb_spec (id self) 0); [discriminate |]. injection Hset as <-.
    cbn. apply as_int32_in_range. unfold INT32_MIN. lia. }
  case_bool_decide as Hsame.
  { unfold stored_id in Hrun. rewrite bool_decide_eq_false_2 in Hrun by exact Hid.
    destruct Hgate as [? | [Hz | Heq]]; [contradiction | |].
    - rewrite Hz in Hrun. discriminate.
    - destruct (application_id (content c)) eqn:Happ;
        [congruence | injection Hrun as <-; congruence
         | injection Hrun as <-; congruence]. }
  destruct (version self <? user_version (content c)); [discriminate |].
  apply bind_returns in Hrun as (c2 & [] & _ & Hrun).
  unfold check_id_after in Hrun. rewrite bool_decide_eq_false_2 in Hrun by exact Hid.
  apply bind_returns in Hrun as (c3 & i & [= <- <-] & Hrun).
  cbn [read_pragma] in Hrun.
  case_bool_decide as Hne; [discriminate |]. injection Hrun as <-.
  try apply dec_stable in Hne. exact Hne.
Qed.

(** On a database without version, an id beyond 32 signed bits is stored
    as 0, and the block returns all the same. *)
Lemma migrate_body_returns_unstamped self c c' :
  migrate_body self c = (c', Return tt) ->
  INT32_MAX < id self ->
  user_version (content c) = 0 ->
  application_id (content c') = 0.
Proof.
  intros Hrun Hwide Hzero. unfold migrate_body in Hrun.
  apply bind_returns in Hrun as (c1 & stored & Hcheck & Hrun).
  apply check_id_returns in Hcheck as (-> & -> & Hgate).
  unfold migrate_from in Hrun.
  apply bind_returns in Hrun as (c2 & v & [= <- <-] & Hrun).
  cbn [read_pragma] in Hrun.
  rewrite bool_decide_eq_true_2 in Hrun by exact Hzero.
  apply bind_returns in Hrun as (c2 & n & [= <- <-] & Hrun).
  case_bool_decide; [discriminate |].
  apply bind_returns in Hrun as (c2 & [] & _ & Hrun).
  apply bind_returns in Hrun as (c3 & [] & _ & Hrun).
  apply bind_returns in Hrun as (c4 & [] & Hset & [= <-]).
  unfold set_id, set_int_pragma in Hset.
  destruct (Z.ltb_spec (id self) 0); [discriminate |]. injection Hset as <-.
  cbn. by apply as_int32_beyond.
Qed.

End MigrateReturns.

(** X12. A [migrate] that returns was entered outside a transaction and
    leaves none open, with [isolation_level] and the foreign keys setting
    as they were, whatever [create] and the migration functions do. *)
Theorem migrate_returns_restored (self : SqliteUtils.HeavyMigration)
    (db db' : Sqlite.Connection) :
  SqliteUtils.migrate self db = (db', Py.Return tt) ->
  Sqlite.txn db = None /\
  Sqlite.txn db' = None /\
  Sqlite.isolation_level db' = Sqlite.isolation_level db /\
  Sqlite.foreign_keys db' = Sqlite.foreign_keys db.
Proof.
  intros Hrun.
  destruct (migrate_returns self db db' Hrun) as (Hout & dbb & s & _ & _ & ->).
  auto.
Qed.

Lemma migrate_returns_restored_witness :
  Sqlite.foreign_keys
    (fst (SqliteUtils.migrate (Samples.migration_with Samples.create_feeds)
            Samples.fresh_connection)) = true.
Proof.
  destruct (migrate_returns_restored (Samples.migration_with Samples.create_feeds)
              Samples.fresh_connection
              (fst (SqliteUtils.migrate (Samples.migration_with Samples.create_feeds)
                      Samples.fresh_connection)) eq_refl)
    as (_ & _ & _ & Hfk).
  exact Hfk.
Defined.

(** X13. A [migrate] that returns, for a configuration with a non-zero id
    that fits in 32 signed bits, leaves a database stamped with that id,
    whatever [create] and the migration functions do. For an id beyond
    2147483647 it does not: on a database without version [migrate]
    returns and the [application_id] stored is 0. *)
Theorem migrate_returns_stamped (self : SqliteUtils.HeavyMigration)
    (db db' : Sqlite.Connection) :
  SqliteUtils.migrate self db = (db', Py.Return tt) ->
  SqliteUtils.id self <> 0 ->
  (SqliteUtils.id self <= Sqlite.INT32_MAX ->
   Sqlite.application_id (Sqlite.content db') = SqliteUtils.id self) /\
  (Sqlite.INT32_MAX < SqliteUtils.id self ->
   Sqlite.user_version (Sqlite.content db) = 0 ->
   Sqlite.application_id (Sqlite.content db') = 0).
Proof.
  intros Hrun Hid.
  destruct (migrate_returns self db db' Hrun) as (_ & dbb & s & Hbody & _ & ->).
  split.
  - intros Hmax. cbn.
    by apply (migrate_body_returns_id self (SqliteUtils.in_block db)).
  - intros Hwide Hzero. cbn.
    by apply (migrate_body_returns_unstamped self (SqliteUtils.in_block db)).
Qed.

Lemma migrate_returns_stamped_witness :
  Sqlite.application_id
    (Sqlite.content
       (fst (SqliteUtils.migrate (Samples.migration_with Samples.create_feeds)
               (Samples.connection_on (Samples.database_at 1 0)))))
  = 0 /\
  Sqlite.application_id
    (Sqlite.content
       (fst (SqliteUtils.migrate (Samples.migration_with Samples.create_feeds)
               Samples.fresh_connection)))
  = Samples.app_id /\
  Sqlite.application_id
    (Sqlite.content
       (fst (SqliteUtils.migrate Samples.migration_with_wide_id
               Samples.fresh_connection)))
  = 0.
Proof.
  split; [reflexivity |]. split.
  - apply (migrate_returns_stamped (Samples.migration_with Samples.create_feeds)
             Samples.fresh_connection); [reflexivity | discriminate | discriminate].
  - apply (migrate_returns_stamped Samples.migration_with_wide_id
             Samples.fresh_connection); [reflexivity | discriminate | reflexivity
                                         | reflexivity].
Defined.

(** ** [migrate] on a database that is up to date *)

Section UpToDate.
Import Py Sqlite SqliteUtils Notions.

Lemma migrate_from_same self stored c :
  user_version (content c) = version self ->
  version self <> 0 ->
  migrate_from self stored c =
    match stored with
    | Some 0 => (c, Raise (new IdError "database with version has missing id"))
    | _ => (c, Return tt)
    end.
Proof.
  intros Hsame Hpos. unfold migrate_from, bind, get_version, get_int_pragma.
  cbn [read_pragma]. rewrite bool_decide_eq_false_2 by congruence.
  rewrite bool_decide_eq_true_2 by exact Hsame.
  destruct stored as [[| ? | ?] |]; reflexivity.
Qed.

(** After the steps from [a] to a higher target that all succeed, the
    stored version is the target, if no migration changes it. *)
Lemma steps_version self version0 (n : nat) : forall a c c',
  keep_version self ->
  version self <= INT32_MAX ->
  version self - a = Z.of_nat (S n) ->
  for_each (range a (version self)) (migrate_step self version0) c = (c', Return tt) ->
  user_version (content c') = version self.
Proof.
  induction n as [| n IH]; intros a c c' Hkeep Hmax Hleft Hrun.
  all: rewrite range_cons in Hrun by lia; cbn [for_each] in Hrun.
  all: apply bind_returns in Hrun as (c1 & [] & Hstep & Hrun).
  all: unfold migrate_step in Hstep.
  all: destruct (migrations self !! a) as [m |] eqn:Hm; [| discriminate].
  all: apply bind_returns in Hstep as (c2 & [] & Hset & Hstep).
  all: apply bind_returns in Hstep as (c3 & [] & Hmig & Hcheck).
  all: unfold set_version, set_int_pragma in Hset.
  all: destruct (Z.ltb_spec (a + 1) 0); [discriminate |]; injection Hset as <-.
  all: assert (Hc3 : user_version (content c3) = a + 1)
         by (match type of Hmig with
             | ?f ?x = _ => pose proof (Hkeep a f Hm x) as Hk
             end; rewrite Hmig in Hk; cbn in Hk; rewrite Hk;
             apply as_int32_in_range; unfold INT32_MIN; lia).
  all: assert (Hc1 : c1 = c3)
         by (unfold try_except, foreign_key_check in Hcheck;
             destruct (foreign_key_check_rows (content c3));
             [by injection Hcheck | discriminate]).
  all: subst c1.
  - rewrite range_nil in Hrun by lia. injection Hrun as <-. lia.
  - apply (IH (a + 1) c3 c' Hkeep); [exact Hmax | lia | exact Hrun].
Qed.

Lemma migrate_body_returns_version self c c' :
  keep_version self ->
  version self <= INT32_MAX ->
  migrate_body self c = (c', Return tt) ->
  user_version (content c') = version self.
Proof.
  intros Hkeep Hmax Hrun. unfold migrate_body in Hrun.
  apply bind_returns in Hrun as (c1 & stored & Hcheck & Hrun).
  apply check_id_returns in Hcheck as (-> & -> & Hgate).
  unfold migrate_from in Hrun.
  apply bind_returns in Hrun as (c2 & v & [= <- <-] & Hrun).
  cbn [read_pragma] in Hrun.
  case_bool_decide as Hzero.
  { apply bind_returns in Hrun as (c2 & n & [= <- <-] & Hrun).
    case_bool_decide; [discriminate |].
    apply bind_returns in Hrun as (c2 & [] & _ & Hrun).
    apply bind_returns in Hrun as (c3 & [] & Hver & Hrun).
    apply bind_returns in Hrun as (c4 & [] & Hset & [= <-]).
    unfold set_version, set_id, set_int_pragma in Hver, Hset.
    destruct (Z.ltb_spec (version self) 0); [discriminate |]. injection Hver as <-.
    destruct (id self <? 0); [discriminate |]. injection Hset as <-.
    cbn. apply as_int32_in_range. unfold INT32_MIN. lia. }
  case_bool_decide as Hsame.
  { destruct (stored_id self c) as [[| ? | ?] |]; try discriminate;
      injection Hrun as <-; exact Hsame. }
  destruct (Z.ltb_spec (version self) (user_version (content c))) as [? | Hle];
    [discriminate |].
  apply bind_returns in Hrun as (c2 & [] & Hsteps & Hrun).
  assert (Hc2 : user_version (content c2) = version self).
  { apply (steps_version self (user_version (content c))
             (Z.to_nat (version self - user_version (content c) - 1))
             (user_version (content c)) c c2 Hkeep); [exact Hmax | lia | exact Hsteps]. }
  unfold check_id_after in Hrun. case_bool_decide; [by injection Hrun as <- |].
  apply bind_returns in Hrun as (c3 & i & [= <- <-] & Hrun).
  case_bool_decide; [discriminate |]. by injection Hrun as <-.
Qed.

End UpToDate.

Lemma migrate_at_version (self : SqliteUtils.HeavyMigration) (db : Sqlite.Connection) :
  Sqlite.txn db = None ->
  Sqlite.user_version (Sqlite.content db) = SqliteUtils.version self ->
  SqliteUtils.version self <> 0 ->
  SqliteUtils.id self = 0 \/
  Sqlite.application_id (Sqlite.content db) = SqliteUtils.id self ->
  SqliteUtils.migrate self db = (db, Py.Return tt).
Proof.
  intros Hout Hsame Hpos Hid.
  assert (Hgate : SqliteUtils.id_check_passes self db)
    by (destruct Hid; [by left | by right; right]).
  unfold SqliteUtils.migrate.
  rewrite (block_returns _ db Hout (SqliteUtils.in_block db) tt (Sqlite.content db)).
  - f_equal. exact (committed_same db Hout).
  - rewrite (migrate_body_passes self db Hgate) by reflexivity.
    rewrite migrate_from_same by assumption.
    unfold SqliteUtils.stored_id. case_bool_decide as H0; [reflexivity |].
    destruct Hid as [? | Heq]; [contradiction |]. rewrite Heq.
    destruct (SqliteUtils.id self); [contradiction | reflexivity | reflexivity].
  - reflexivity.
Qed.

(** X14. On a connection outside a transaction, a database already at
    the configured (non-zero) version is left exactly as it is: [migrate]
    returns when no id is configured or the stored id is the configured
    one, and raises [IdError("database with version has missing id")] when
    an id is configured and the database has none. Neither [create] nor any
    migration is run. *)
Theorem migrate_up_to_date (self : SqliteUtils.HeavyMigration) (db : Sqlite.Connection) :
  Sqlite.txn db = None ->
  Sqlite.user_version (Sqlite.content db) = SqliteUtils.version self ->
  SqliteUtils.version self <> 0 ->
  (SqliteUtils.id self = 0 \/
   Sqlite.application_id (Sqlite.content db) = SqliteUtils.id self ->
   SqliteUtils.migrate self db = (db, Py.Return tt)) /\
  (SqliteUtils.id self <> 0 ->
   Sqlite.application_id (Sqlite.content db) = 0 ->
   SqliteUtils.migrate self db =
     (db, Py.Raise (Py.new Py.IdError "database with version has missing id"))).
Proof.
  intros Hout Hsame Hpos. split.
  - intros Hid. by apply migrate_at_version.
  - intros Hid Hnone.
    assert (Hgate : SqliteUtils.id_check_passes self db) by (right; by left).
    unfold SqliteUtils.migrate.
    erewrite (block_raises _ db Hout (SqliteUtils.in_block db) _ (Sqlite.content db)).
    + by rewrite committed_same.
    + rewrite (migrate_body_passes self db Hgate) by reflexivity.
      rewrite migrate_from_same by assumption.
      unfold SqliteUtils.stored_id. rewrite bool_decide_eq_false_2 by exact Hid.
      rewrite Hnone. reflexivity.
    + reflexivity.
    + reflexivity.
Qed.

Lemma migrate_up_to_date_witness :
  SqliteUtils.migrate (Samples.migration_with Samples.create_feeds)
    (Samples.connection_on (Samples.database_at 3 Samples.app_id))
  = (Samples.connection_on (Samples.database_at 3 Samples.app_id), Py.Return tt) /\
  SqliteUtils.migrate (Samples.migration_with Samples.create_feeds)
    (Samples.connection_on (Samples.database_at 3 0))
  = (Samples.connection_on (Samples.database_at 3 0),
     Py.Raise (Py.new Py.IdError "database with version has missing id")).
Proof.
  split.
  - apply (migrate_up_to_date (Samples.migration_with Samples.create_feeds)
             (Samples.connection_on (Samples.database_at 3 Samples.app_id)));
      [reflexivity | reflexivity | discriminate | by right].
  - apply (migrate_up_to_date (Samples.migration_with Samples.create_feeds)
             (Samples.connection_on (Samples.database_at 3 0)));
      [reflexivity | reflexivity | discriminate | discriminate | reflexivity].
Defined.

(** X15. [migrate] is idempotent: for a configuration with a non-zero
    version whose migration functions do not change [user_version]
    themselves, and whose version and id fit in 32 signed bits, after a
    [migrate] that returned, a second [migrate] returns at once and leaves
    the connection exactly as the first left it. *)
Theorem migrate_twice (self : SqliteUtils.HeavyMigration) (db db' : Sqlite.Connection) :
  SqliteUtils.version self <> 0 ->
  SqliteUtils.version self <= Sqlite.INT32_MAX ->
  SqliteUtils.id self <= Sqlite.INT32_MAX ->
  Notions.keep_version self ->
  SqliteUtils.migrate self db = (db', Py.Return tt) ->
  Sqlite.user_version (Sqlite.content db') = SqliteUtils.version self /\
  SqliteUtils.migrate self db' = (db', Py.Return tt).
Proof.
  intros Hpos Hvmax Himax Hkeep Hrun.
  destruct (migrate_returns self db db' Hrun) as (_ & dbb & s & Hbody & _ & Hdb').
  assert (Hver : Sqlite.user_version (Sqlite.content db') = SqliteUtils.version self).
  { rewrite Hdb'. cbn.
    by apply (migrate_body_returns_version self (SqliteUtils.in_block db)). }
  split; [exact Hver |].
  apply migrate_at_version; [by rewrite Hdb' | exact Hver | exact Hpos |].
  destruct (decide (SqliteUtils.id self = 0)) as [? | Hid]; [by left | right].
  rewrite Hdb'. cbn.
  by apply (migrate_body_returns_id self (SqliteUtils.in_block db)).
Qed.

Lemma sample_keeps_version :
  Notions.keep_version (Samples.migration_with Samples.create_feeds).
Proof.
  intros v m Hm c. cbn in Hm.
  apply lookup_insert_Some in Hm as [[_ <-] | [_ Hm]]; [reflexivity |].
  apply lookup_singleton_Some in Hm as [_ <-]. reflexivity.
Defined.

Lemma migrate_twice_witness :
  let once := fst (SqliteUtils.migrate (Samples.migration_with Samples.create_feeds)
                     (Samples.connection_on (Samples.database_at 1 Samples.app_id))) in
  Sqlite.user_version (Sqlite.content once) = 3 /\
  SqliteUtils.migrate (Samples.migration_with Samples.create_feeds) once
    = (once, Py.Return tt).
Proof.
  intros once.
  apply (migrate_twice (Samples.migration_with Samples.create_feeds)
           (Samples.connection_on (Samples.database_at 1 Samples.app_id)) once).
  - discriminate.
  - discriminate.
  - discriminate.
  - exact sample_keeps_version.
  - reflexivity.
Defined.

(** ** [setup_db] *)

(** X16. A [setup_db] that returns has passed both requirement checks,
    was called outside a transaction, and leaves the connection outside a
    transaction with foreign keys ON and, for a non-zero id that fits in
    32 signed bits, a database stamped with it; this holds whatever
    [create] and the migrations do, for a journal mode pragma that leaves
    the transaction state and the foreign keys setting alone. *)
Theorem setup_db_returns (engine : Setup.Engine) (create : Sqlite.M unit)
    (version : Z) (migrations : gmap Z (Sqlite.M unit)) (id : Z)
    (minimum_sqlite_version : list Z) (required_sqlite_functions : list string)
    (wal_enabled : option bool) (db db' : Sqlite.Connection) :
  Notions.quiet_journal engine ->
  Setup.setup_db engine create version migrations id minimum_sqlite_version
    required_sqlite_functions wal_enabled db = (db', Py.Return tt) ->
  Setup.require_version engine minimum_sqlite_version = Py.Return tt /\
  Setup.require_functions engine required_sqlite_functions = Py.Return tt /\
  Sqlite.txn db = None /\
  Sqlite.txn db' = None /\
  Sqlite.foreign_keys db' = true /\
  (id <> 0 -> id <= Sqlite.INT32_MAX ->
   Sqlite.application_id (Sqlite.content db') = id).
Proof.
  intros Hquiet Hrun. unfold Setup.setup_db in Hrun.
  apply bind_returns in Hrun as (c1 & [] & Hversion & Hrun).
  apply bind_returns in Hrun as (c2 & [] & Hfunctions & Hrun).
  apply bind_returns in Hrun as (c3 & [] & Hpragma & Hrun).
  apply bind_returns in Hrun as (c4 & [] & Hjournal & Hrun).
  unfold Setup.check in Hversion, Hfunctions.
  injection Hversion as Hc1 Hversion. injection Hfunctions as Hc2 Hfunctions.
  subst c1 c2.
  assert (Hc4 : Sqlite.txn c4 = Sqlite.txn c3 /\
                Sqlite.foreign_keys c4 = Sqlite.foreign_keys c3).
  { destruct wal_enabled as [[|] |].
    - destruct (Hquiet true c3) as [Ht Hf]. rewrite Hjournal in Ht, Hf. auto.
    - destruct (Hquiet false c3) as [Ht Hf]. rewrite Hjournal in Ht, Hf. auto.
    - injection Hjournal as <-. auto. }
  destruct Hc4 as [Htxn Hfk].
  pose proof (migrate_returns _ _ _ Hrun) as (Hout & dbb & s & Hbody & _ & ->).
  rewrite Htxn in Hout.
  unfold Sqlite.set_pragma_foreign_keys in Hpragma.
  destruct (Sqlite.txn db) eqn:Hdb.
  { injection Hpragma as <-. congruence. }
  injection Hpragma as <-. cbn in Hfk.
  repeat split; auto.
  intros Hid Hmax. cbn.
  apply (migrate_body_returns_id _ _ _ Hbody); [exact Hid | exact Hmax].
Qed.

Lemma setup_db_returns_witness :
  let db := {| Sqlite.isolation_level := Some ""; Sqlite.foreign_keys := false;
               Sqlite.txn := None; Sqlite.content := Samples.empty_database |} in
  Sqlite.foreign_keys
    (fst (Setup.setup_db Setup.complete_engine Samples.create_feeds 3 ∅
            Samples.app_id [3; 15] ["json"] (Some true) db))
  = true.
Proof.
  intros db.
  apply (setup_db_returns Setup.complete_engine Samples.create_feeds 3 ∅
           Samples.app_id [3; 15] ["json"] (Some true) db
           (fst (Setup.setup_db Setup.complete_engine Samples.create_feeds 3 ∅
                   Samples.app_id [3; 15] ["json"] (Some true) db))).
  - intros b c. split; reflexivity.
  - reflexivity.
Defined.

(** ** More on [LocalConnectionFactory] *)

(** X17. A context that holds a connection keeps that very connection
    through everything that follows, whatever is called in whatever
    context and whatever contexts are made: [__exit__] and [close()] close
    the connection but never take it out of the context or replace it, so
    [get()] in that context gives the same answer ever after, in every
    thread. *)
Theorem factory_context_keeps_connection (path : string)
    (before_close : Factory.thread -> Factory.conn -> bool -> Py.outcome unit)
    (check_same_thread : bool) (t0 : Factory.thread) (c0 : Factory.context)
    (history later : list Factory.event)
    (c : Factory.context) (db : Factory.conn) :
  let f := Factory.after history
             (Factory.__init__ path before_close check_same_thread t0 c0) in
  Factory._local f !! c = Some db ->
  Factory._local (Factory.after later f) !! c = Some db /\
  forall t t', Factory.get t c (Factory.after later f) = Factory.get t' c f.
Proof.
  intros f Hheld.
  assert (Hf : Factory.consistent t0 c0 f) by apply reached_consistent.
  assert (Hkept : Factory._local (Factory.after later f) !! c = Some db).
  { apply after_keeps; [| exact Hheld].
    exact (Factory.contexts_known _ _ _ Hf c db Hheld). }
  split; [exact Hkept |].
  intros t t'. unfold Factory.get. rewrite Hkept, Hheld.
  by destruct (after_static later f) as (-> & _ & _ & ->).
Qed.

Lemma factory_context_keeps_connection_witness :
  let f := Factory.after [Factory.New_context; Factory.Call 1 1 Factory.Enter]
             (Factory.__init__ "db.sqlite" (fun _ _ _ => Py.Return tt) true 0 0) in
  Factory._local
    (Factory.after [Factory.Call 1 1 Factory.Exit; Factory.Copy_context 0;
                    Factory.Call 1 1 Factory.Enter] f) !! 1%nat
  = Some 1%nat.
Proof.
  intros f.
  apply (factory_context_keeps_connection "db.sqlite" (fun _ _ _ => Py.Return tt)
           true 0 0 [Factory.New_context; Factory.Call 1 1 Factory.Enter]
           [Factory.Call 1 1 Factory.Exit; Factory.Copy_context 0;
            Factory.Call 1 1 Factory.Enter] 1 1).
  reflexivity.
Defined.

(** X18. In the creating context, and in every context that descends from
    it by copying, [get()] returns the main connection: through any
    history, in any thread, on a private path or not, and also after that
    connection was closed. *)
Theorem factory_creator_gets_main (path : string)
    (before_close : Factory.thread -> Factory.conn -> bool -> Py.outcome unit)
    (check_same_thread : bool) (t0 t : Factory.thread) (c0 c : Factory.context)
    (history : list Factory.event) :
  let f := Factory.after history
             (Factory.__init__ path before_close check_same_thread t0 c0) in
  Factory.descends c0 history c ->
  Factory._main f = 0%nat /\
  Factory.get t c f = Py.Return 0%nat.
Proof.
  intros f Hc.
  assert (Hmain : Factory._main f = 0%nat) by apply reached_main.
  split; [exact Hmain |].
  pose proof (descends_local t0 c0 path before_close check_same_thread history c Hc)
    as Hheld.
  fold f in Hheld. unfold Factory.get. rewrite Hheld, Hmain. rewrite bool_decide_eq_true_2 by reflexivity.
  by rewrite andb_false_r.
Qed.

Lemma factory_creator_gets_main_witness :
  let f := Factory.after [Factory.Call 0 0 Factory.Close; Factory.Copy_context 0]
             (Factory.__init__ ":memory:" (fun _ _ _ => Py.Return tt) true 0 0) in
  Factory.get 0 0 f = Py.Return 0%nat /\
  Factory.get 1 1 f = Py.Return 0%nat /\
  0%nat ∈ Factory.closed f.
Proof.
  intros f. split; [| split].
  - apply (factory_creator_gets_main ":memory:" (fun _ _ _ => Py.Return tt) true
             0 0 0 0 [Factory.Call 0 0 Factory.Close; Factory.Copy_context 0]).
    apply Factory.descends_creator.
  - apply (factory_creator_gets_main ":memory:" (fun _ _ _ => Py.Return tt) true
             0 1 0 1 [Factory.Call 0 0 Factory.Close; Factory.Copy_context 0]).
    exact (Factory.descends_copy 0 [Factory.Call 0 0 Factory.Close] 0 []
             (Factory.descends_creator 0 _)).
  - apply (bool_decide_unpack _). vm_compute. exact I.
Defined.

(** X19. Leaving the scope does not empty the context: on a path that is
    not private and with a hook that returns, after a thread has entered
    and left the scope in a context that held no connection, [get()] in
    that context does not raise [UsageError] but returns the connection
    that was just closed. *)
Theorem factory_get_after_exit (path : string)
    (before_close : Factory.thread -> Factory.conn -> bool -> Py.outcome unit)
    (check_same_thread : bool) (t0 t t' : Factory.thread) (c0 c : Factory.context)
    (history : list Factory.event) :
  Factory._is_private path = false ->
  (forall t db is_closed, before_close t db is_closed = Py.Return tt) ->
  let f0 := Factory.after history
              (Factory.__init__ path before_close check_same_thread t0 c0) in
  (c < Factory.contexts f0)%nat ->
  Factory._local f0 !! c = None ->
  let f := Factory.after [Factory.Call t c Factory.Enter; Factory.Call t c Factory.Exit]
             f0 in
  exists db, Factory.get t' c f = Py.Return db /\ db ∈ Factory.closed f.
Proof.
  intros Hshared Hhook f0 Hc Hnone f.
  destruct (after_static history
              (Factory.__init__ path before_close check_same_thread t0 c0))
    as (Hpath & Hbefore & _ & _).
  fold f0 in Hpath, Hbefore. cbn in Hpath, Hbefore.
  set (db := length (Factory.connected f0)).
  assert (Hf : f = Factory.mark_closed db (Factory.set_local t c db f0)).
  { assert (Henter : Factory.perform (Factory.Call t c Factory.Enter) f0
                     = Factory.set_local t c db f0).
    { cbn [Factory.perform]. rewrite bool_decide_eq_true_2 by exact Hc.
      unfold Factory.__enter__. rewrite Hnone. reflexivity. }
    unfold f. rewrite !after_cons, Henter.
    cbn [Factory.after fold_left Factory.perform].
    rewrite bool_decide_eq_true_2 by exact Hc.
    unfold Factory.__exit__, Factory._close. cbn [Factory._local Factory.set_local].
    rewrite lookup_insert_eq. cbn [Factory.before_close Factory.set_local].
    rewrite Hbefore, Hhook. unfold Factory.db_close.
    cbn [Factory.connected Factory.check_same_thread Factory.set_local].
    rewrite list_lookup_middle by reflexivity.
    rewrite bool_decide_eq_true_2 by reflexivity. rewrite andb_false_r.
    reflexivity. }
  exists db. rewrite Hf. split.
  - unfold Factory.get. cbn. rewrite lookup_insert_eq, Hpath, Hshared. reflexivity.
  - cbn. apply elem_of_union_l, elem_of_singleton. reflexivity.
Qed.

Lemma factory_get_after_exit_witness :
  let f := Factory.after
             [Factory.Call 1 1 Factory.Enter; Factory.Call 1 1 Factory.Exit]
             (Factory.after [Factory.New_context]
                (Factory.__init__ "db.sqlite" (fun _ _ _ => Py.Return tt) true 0 0)) in
  exists db, Factory.get 1 1 f = Py.Return db /\ db ∈ Factory.closed f.
Proof.
  apply (factory_get_after_exit "db.sqlite" (fun _ _ _ => Py.Return tt) true
           0 1 1 0 1 [Factory.New_context] eq_refl (fun _ _ _ => eq_refl)).
  - vm_compute. lia.
  - reflexivity.
Defined.

(** X20. Calling [close()] a second time is a no-op: when the hook, given
    a connection that is already closed, returns or fails with the error of
    a closed database, a [close()] of the creating thread in the creating
    context that follows one that returned returns as well and changes
    nothing. *)
Theorem factory_close_twice (path : string)
    (before_close : Factory.thread -> Factory.conn -> bool -> Py.outcome unit)
    (check_same_thread : bool) (t0 : Factory.thread) (c0 : Factory.context)
    (history : list Factory.event)
    (f1 : Factory.LocalConnectionFactory) :
  (forall t db,
     before_close t db true = Py.Return tt \/
     exists e, before_close t db true = Py.Raise e /\
               Py.isinstance e Py.sqlite3_ProgrammingError = true /\
               Py.contains "cannot operate on a closed database"
                 (Py.lower (Py.str e)) = true) ->
  Factory.close t0 c0
    (Factory.after history
       (Factory.__init__ path before_close check_same_thread t0 c0))
    = (f1, Py.Return tt) ->
  Factory.close t0 c0 f1 = (f1, Py.Return tt).
Proof.
  intros Hhook Hfirst.
  set (f := Factory.after history
              (Factory.__init__ path before_close check_same_thread t0 c0)) in *.
  assert (Hf : Factory.consistent t0 c0 f) by apply reached_consistent.
  assert (Hhookf : Factory.before_close f = before_close)
    by (unfold f; by destruct (after_static history
                                 (Factory.__init__ path before_close
                                    check_same_thread t0 c0)) as (_ & -> & _)).
  pose proof (Factory.main_is_creators _ _ _ Hf) as Hmain.
  pose proof (Factory.main_made_by _ _ _ Hf) as Hmade.
  assert (Hcloses : Factory.db_close t0 (Factory._main f) f =
                      (Factory.mark_closed (Factory._main f) f, Py.Return tt)).
  { unfold Factory.db_close. rewrite Hmade.
    rewrite bool_decide_eq_true_2 by reflexivity. by rewrite andb_false_r. }
  unfold Factory.close in Hfirst.
  rewrite bool_decide_eq_true_2 in Hfirst by exact Hmain.
  unfold Factory._close in Hfirst. rewrite Hmain in Hfirst.
  assert (Hf1 : f1 = Factory.mark_closed (Factory._main f) f).
  { destruct (Factory.before_close f _ _ _) as [[] | e].
    - rewrite Hcloses in Hfirst. by injection Hfirst.
    - destruct (Py.isinstance e _); [| discriminate].
      destruct (Py.contains _ _); [| discriminate].
      rewrite Hcloses in Hfirst. by injection Hfirst. }
  assert (Hagain : Factory.db_close t0 (Factory._main f) f1 = (f1, Py.Return tt)).
  { rewrite Hf1. unfold Factory.db_close. cbn [Factory.connected Factory.mark_closed
                                                  Factory.check_same_thread].
    rewrite Hmade. rewrite bool_decide_eq_true_2 by reflexivity.
    rewrite andb_false_r. by rewrite mark_closed_again. }
  unfold Factory.close, Factory._close.
  replace (Factory._local f1) with (Factory._local f) by (by rewrite Hf1).
  replace (Factory._main f1) with (Factory._main f) by (by rewrite Hf1).
  replace (Factory.before_close f1) with before_close by (by rewrite Hf1).
  rewrite bool_decide_eq_true_2 by exact Hmain. rewrite Hmain.
  rewrite (bool_decide_eq_true_2 (Factory._main f ∈ _))
    by (rewrite Hf1; apply elem_of_union_l, elem_of_singleton; reflexivity).
  destruct (Hhook t0 (Factory._main f)) as [-> | (e & -> & -> & ->)]; exact Hagain.
Qed.

Lemma factory_close_twice_witness :
  let f1 := fst (Factory.close 0 0
                   (Factory.after []
                      (Factory.__init__ ":memory:" Notions.closing_hook true 0 0))) in
  Factory.close 0 0 f1 = (f1, Py.Return tt).
Proof.
  intros f1.
  apply (factory_close_twice ":memory:" Notions.closing_hook true 0 0 [] f1).
  - intros t db. right. eexists. split; [reflexivity |]. split; reflexivity.
  - reflexivity.
Defined.

(** ** [wrap_exceptions] applied twice *)

(** X21. Wrapping is idempotent: when the exceptions [exc_type] makes are
    not [sqlite3.DatabaseError]s, a block wrapped twice with the same
    arguments behaves as the block wrapped once (a wrapped error is not
    wrapped again, and what the inner wrapper lets through the outer one
    lets through). *)
Theorem wrap_exceptions_twice {A : Type} (exc_type : string -> Py.exn)
    (message : string) (body : Sqlite.M A) (db : Sqlite.Connection) :
  (forall m, Py.isinstance (exc_type m) Py.sqlite3_DatabaseError = false) ->
  SqliteUtils.wrap_exceptions exc_type message
    (SqliteUtils.wrap_exceptions exc_type message body) db
  = SqliteUtils.wrap_exceptions exc_type message body db.
Proof.
  intros Hexc.
  assert (Hfrom : forall m c,
            Py.isinstance (Py.from (exc_type m) c) Py.sqlite3_DatabaseError = false)
    by (intros m c; exact (Hexc m)).
  destruct (body db) as [db' [a | e]] eqn:Hbody.
  { unfold SqliteUtils.wrap_exceptions, Sqlite.try_except. rewrite Hbody.
    reflexivity. }
  destruct (Py.isinstance e Py.sqlite3_OperationalError) eqn:Hop.
  { pose proof (wrap_operational exc_type message body db db' e Hbody Hop) as Hinner.
    rewrite (wrap_other exc_type message _ db db' _ Hinner (Hfrom _ _)).
    exact (eq_sym Hinner). }
  destruct (Py.isinstance e Py.sqlite3_ProgrammingError) eqn:Hpr.
  { pose proof (wrap_programming exc_type message body db db' e Hbody Hpr) as Hinner.
    destruct (Py.contains "cannot operate on a closed database"
                (Py.lower (Py.str e))) eqn:Hin.
    - rewrite (wrap_other exc_type message _ db db' _ Hinner (Hfrom _ _)).
      exact (eq_sym Hinner).
    - rewrite (wrap_programming exc_type message _ db db' e Hinner Hpr), Hin.
      exact (eq_sym Hinner). }
  destruct (Py.isinstance e Py.sqlite3_DatabaseError) eqn:Hdb.
  - pose proof (wrap_database exc_type message body db db' e Hbody Hop Hpr Hdb)
      as Hinner.
    destruct (bool_decide (Py.type_of e = Py.sqlite3_DatabaseError)
              && Py.contains "file is not a database" (Py.lower (Py.str e)))
      eqn:Hcond.
    + rewrite (wrap_other exc_type message _ db db' _ Hinner (Hfrom _ _)).
      exact (eq_sym Hinner).
    + rewrite (wrap_database exc_type message _ db db' e Hinner Hop Hpr Hdb), Hcond.
      exact (eq_sym Hinner).
  - pose proof (wrap_other exc_type message body db db' e Hbody Hdb) as Hinner.
    rewrite (wrap_other exc_type message _ db db' e Hinner Hdb).
    exact (eq_sym Hinner).
Qed.

Lemma wrap_exceptions_twice_witness :
  SqliteUtils.wrap_exceptions Samples.StorageError "unexpected error"
    (SqliteUtils.wrap_exceptions Samples.StorageError "unexpected error"
       (Sqlite.raise (A := unit) Samples.closed_database_error))
    Samples.fresh_connection
  = (Samples.fresh_connection,
     Py.Raise (Samples.StorageError "operation on closed database")).
Proof.
  rewrite (wrap_exceptions_twice (A := unit) Samples.StorageError "unexpected error"
             (Sqlite.raise Samples.closed_database_error) Samples.fresh_connection).
  - reflexivity.
  - intros m. reflexivity.
Defined.

(** ** The integer pragmas *)

(** X22. Writing an integer pragma and reading it back: a value from 0
    to 2147483647 is stored and read back, the other pragma, the schema
    and the transaction being untouched; a value beyond 2147483647 passes
    the check of the lower bound, and what is stored and read back is 0; a
    negative value raises [ValueError] and nothing is written. *)
Theorem set_get_int_pragma (p : Sqlite.pragma) (value : Z) (db : Sqlite.Connection) :
  (0 <= value ->
   exists db',
     SqliteUtils.set_int_pragma p value (Some 0) db = (db', Py.Return tt) /\
     (value <= Sqlite.INT32_MAX ->
      SqliteUtils.get_int_pragma p db' = (db', Py.Return value)) /\
     (Sqlite.INT32_MAX < value ->
      SqliteUtils.get_int_pragma p db' = (db', Py.Return 0)) /\
     (forall q, q <> p ->
        SqliteUtils.get_int_pragma q db' =
          (db', snd (SqliteUtils.get_int_pragma q db))) /\
     Sqlite.sqlite_master (Sqlite.content db') = Sqlite.sqlite_master (Sqlite.content db) /\
     Sqlite.txn db' = Sqlite.txn db) /\
  (value < 0 ->
   SqliteUtils.set_int_pragma p value (Some 0) db =
     (db, Py.Raise (Py.new Py.ValueError
                      (Sqlite.pragma_name p +:+ " must be >=0, got "
                       +:+ Py.str_int value)))).
Proof.
  unfold SqliteUtils.set_int_pragma. split; intros Hv.
  - destruct (Z.ltb_spec value 0); [lia |].
    eexists. split; [reflexivity |].
    split; [| split; [| split; [| split; destruct p; reflexivity]]].
    + intros Hmax. unfold SqliteUtils.get_int_pragma. f_equal. f_equal.
      destruct p; cbn; apply as_int32_in_range; unfold Sqlite.INT32_MIN; lia.
    + intros Hwide. unfold SqliteUtils.get_int_pragma. f_equal. f_equal.
      destruct p; cbn; by apply as_int32_beyond.
    + intros q Hq. destruct p, q; try contradiction; reflexivity.
  - destruct (Z.ltb_spec value 0); [| lia]. reflexivity.
Qed.

Lemma set_get_int_pragma_witness :
  snd (SqliteUtils.get_int_pragma Sqlite.PRAGMA_user_version
         (fst (SqliteUtils.set_int_pragma Sqlite.PRAGMA_user_version 2147483647
                 (Some 0) Samples.fresh_connection)))
    = Py.Return 2147483647 /\
  snd (SqliteUtils.get_int_pragma Sqlite.PRAGMA_application_id
         (fst (SqliteUtils.set_int_pragma Sqlite.PRAGMA_application_id 3735928559
                 (Some 0) Samples.fresh_connection)))
    = Py.Return 0 /\
  SqliteUtils.set_int_pragma Sqlite.PRAGMA_user_version (-1) (Some 0)
    Samples.fresh_connection
  = (Samples.fresh_connection,
     Py.Raise (Py.new Py.ValueError "user_version must be >=0, got -1")).
Proof.
  split; [| split].
  - destruct (set_get_int_pragma Sqlite.PRAGMA_user_version 2147483647
                Samples.fresh_connection) as [Hpos _].
    destruct (Hpos ltac:(lia)) as (db' & Hset & Hget & _).
    rewrite Hset. cbn [fst]. rewrite Hget by (unfold Sqlite.INT32_MAX; lia).
    reflexivity.
  - destruct (set_get_int_pragma Sqlite.PRAGMA_application_id 3735928559
                Samples.fresh_connection) as [Hpos _].
    destruct (Hpos ltac:(lia)) as (db' & Hset & _ & Hget & _).
    rewrite Hset. cbn [fst]. rewrite Hget by (unfold Sqlite.INT32_MAX; lia).
    reflexivity.
  - destruct (set_get_int_pragma Sqlite.PRAGMA_user_version (-1)
                Samples.fresh_connection) as [_ Hneg].
    apply Hneg. lia.
Defined.
